(** * k6ctl: script archiving and ConfigMap publishing

    A shallow embedding of [src/script/script.service.ts]: the name
    sanitizer [sanitizeText], the archiver [archiveTest], the publisher
    [createConfigMap] and the retractor [deleteConfigMap], together with the
    Node.js library functions they call ([String.prototype.toLowerCase] and
    [replace], [path.parse], [path.basename], [path.join], base64 file
    reads).

    - JavaScript strings are sequences of UTF-16 code units; they are
      modelled as lists of [N].
    - Paths are POSIX paths, as [node:path] treats them on Linux and macOS.
    - The file system, the clock, the [k6] subprocess and the cluster API are
      the outside world.  The program reads the first two through a [World]
      value, calls the other two through an [Env] of collaborators, whose
      answers are arbitrary, and everything it does to them is recorded in a
      trace of [Event]s.  A call runs from start to end without another call
      running in between.
    - A failure is a thrown [Error]; as in the source, failures are told
      apart by their message. *)

From Stdlib Require Import String Ascii.
From Stdlib Require Import List Bool NArith ZArith Lia.
From Stdlib Require Import DecimalString DecimalPos DecimalZ.
Import ListNotations.

Set Implicit Arguments.

(** ** JavaScript strings *)

Module JS.

Definition jsstring := list N.

(** A string literal of the source, as code units. *)
Definition js (s : string) : jsstring :=
  map N_of_ascii (list_ascii_of_string s).

Definition CHAR_DOT : N := 46.
Definition CHAR_HYPHEN : N := 45.
Definition CHAR_UNDERSCORE : N := 95.
Definition CHAR_FORWARD_SLASH : N := 47.

Definition in_range (lo hi c : N) : bool := (lo <=? c)%N && (c <=? hi)%N.

(** [String.prototype.toLowerCase], one code unit at a time.  The Unicode
    default lower-case mapping is written out for Basic Latin and Latin-1,
    and for the two characters outside ASCII whose lower case has an ASCII
    letter in it: U+0130 (two code units, [i] and U+0307) and U+212A (the
    Kelvin sign, [k]).  Any other code unit outside ASCII is left as it is:
    its real lower case has as many code units, none of them ASCII, and the
    sanitizer treats all code units outside ASCII alike. *)
Definition lower_unit (c : N) : list N :=
  (if in_range 65 90 c then [c + 32]
   else if in_range 192 222 c && negb (c =? 215) then [c + 32]
   else if c =? 304 then [105; 775]
   else if c =? 8490 then [107]
   else [c])%N.

Definition toLowerCase (s : jsstring) : jsstring := flat_map lower_unit s.

(** [s.startsWith(c)] and [s.endsWith(c)] for a single code unit. *)
Definition starts_with (c : N) (s : jsstring) : bool :=
  match s with
  | x :: _ => (x =? c)%N
  | [] => false
  end.

Definition ends_with (c : N) (s : jsstring) : bool := starts_with c (rev s).

Fixpoint is_prefix (p s : jsstring) : bool :=
  match p, s with
  | [], _ => true
  | _ :: _, [] => false
  | a :: p', b :: s' => (a =? b)%N && is_prefix p' s'
  end.

(** [s.includes(p)] *)
Fixpoint includes (p s : jsstring) : bool :=
  is_prefix p s ||
  match s with
  | [] => false
  | _ :: s' => includes p s'
  end.

End JS.
Import JS.

(** ** Regular-expression replacements used by the sanitizer *)

Module Regex.

(** The character classes of the source. *)
Definition lower_alnum (c : N) : bool :=            (* [a-z0-9] *)
  in_range 97 122 c || in_range 48 57 c.

Definition name_char (c : N) : bool :=              (* [a-z0-9.-] *)
  lower_alnum c || (c =? CHAR_DOT)%N || (c =? CHAR_HYPHEN)%N.

Definition not_alnum (c : N) : bool := negb (lower_alnum c).   (* [^a-z0-9] *)
Definition not_name_char (c : N) : bool := negb (name_char c). (* [^a-z0-9.-] *)
Definition dot_or_hyphen (c : N) : bool :=          (* [.-] *)
  (c =? CHAR_DOT)%N || (c =? CHAR_HYPHEN)%N.
Definition is_char (d c : N) : bool := (c =? d)%N.

(** [s.replace(/C/g, r)] for a one-character class [C]: every code unit of
    the class is a match of its own. *)
Definition replace_each (cls : N -> bool) (r : N) (s : jsstring) : jsstring :=
  map (fun c => if cls c then r else c) s.

(** The scan for [C+$] from the current position onwards: a position matches
    when everything from it to the end is in [C]; otherwise the code unit is
    copied and the scan moves on. *)
Fixpoint strip_trailing (cls : N -> bool) (s : jsstring) : jsstring :=
  match s with
  | [] => []
  | c :: r => if forallb cls (c :: r) then [] else c :: strip_trailing cls r
  end.

(** The match of [^C+] at position 0: the longest run of [C]. *)
Fixpoint strip_leading (cls : N -> bool) (s : jsstring) : jsstring :=
  match s with
  | [] => []
  | c :: r => if cls c then strip_leading cls r else c :: r
  end.

(** [s.replace(/^C+|C+$/g, '')] *)
Definition strip_edges (cls : N -> bool) (s : jsstring) : jsstring :=
  strip_trailing cls (strip_leading cls s).

(** [s.replace(/[d]+/g, 'd')]: a maximal run of [d] becomes one [d]. *)
Fixpoint collapse (d : N) (s : jsstring) : jsstring :=
  match s with
  | [] => []
  | c :: r =>
      if (c =? d)%N && starts_with d r then collapse d r
      else c :: collapse d r
  end.

End Regex.
Import Regex.

(** ** [sanitizeText] *)

Definition sanitizeText (text : jsstring) : jsstring :=
  (* Convert to lowercase *)
  let sanitized := toLowerCase text in
  (* Replace underscores with hyphens *)
  let sanitized := replace_each (is_char CHAR_UNDERSCORE) CHAR_HYPHEN sanitized in
  (* Replace any character that's not alphanumeric, hyphen, or dot with hyphen *)
  let sanitized := replace_each not_name_char CHAR_HYPHEN sanitized in
  (* Remove leading and trailing non-alphanumeric characters *)
  let sanitized := strip_edges not_alnum sanitized in
  (* Replace multiple consecutive hyphens or dots with a single one *)
  let sanitized := collapse CHAR_HYPHEN sanitized in
  let sanitized := collapse CHAR_DOT sanitized in
  (* Ensure it doesn't start or end with a hyphen or dot *)
  let sanitized := strip_edges dot_or_hyphen sanitized in
  sanitized.

(** ** Node's [path] module (POSIX flavour) *)

Module Path.

Local Open Scope Z_scope.

(** [s.slice(start, end)] for [0 <= start <= end]. *)
Definition slice (s : jsstring) (start end_ : Z) : jsstring :=
  firstn (Z.to_nat (end_ - start)) (skipn (Z.to_nat start) s).

Definition is_sep (c : N) : bool := (c =? CHAR_FORWARD_SLASH)%N.

(** *** [path.basename(path)]

    The library scans the path from its last code unit to its first; the
    loop runs here over the reversed path, the index of the code unit at
    hand being the number of code units before it. *)
Record BaseScan := mkBaseScan { b_start : Z; b_end : Z; b_matchedSlash : bool }.

Fixpoint basename_loop (rp : list N) (st : BaseScan) : BaseScan :=
  match rp with
  | [] => st
  | code :: rest =>
      let i := Z.of_nat (length rest) in
      if is_sep code then
        if negb (b_matchedSlash st)
        then mkBaseScan (i + 1) (b_end st) (b_matchedSlash st)      (* break *)
        else basename_loop rest st
      else if b_end st =? -1
        then basename_loop rest (mkBaseScan (b_start st) (i + 1) false)
        else basename_loop rest st
  end.

Definition basename (path : jsstring) : jsstring :=
  let st := basename_loop (rev path) (mkBaseScan 0 (-1) true) in
  if b_end st =? -1 then [] else slice path (b_start st) (b_end st).

(** *** [path.parse(path)] *)
Record ParsedPath := mkParsedPath {
  root : jsstring;
  dir : jsstring;
  base : jsstring;
  ext : jsstring;
  name : jsstring
}.

Record ParseScan := mkParseScan {
  startDot : Z;
  startPart : Z;
  end_ : Z;
  matchedSlash : bool;
  preDotState : Z
}.

(** The loop body for a code unit that is not a separator. *)
Definition parse_char (i : Z) (code : N) (st : ParseScan) : ParseScan :=
  let st :=
    if end_ st =? -1
    then mkParseScan (startDot st) (startPart st) (i + 1) false (preDotState st)
    else st in
  if (code =? CHAR_DOT)%N then
    if startDot st =? -1
    then mkParseScan i (startPart st) (end_ st) (matchedSlash st) (preDotState st)
    else if negb (preDotState st =? 1)
    then mkParseScan (startDot st) (startPart st) (end_ st) (matchedSlash st) 1
    else st
  else if negb (startDot st =? -1)
    then mkParseScan (startDot st) (startPart st) (end_ st) (matchedSlash st) (-1)
    else st.

Fixpoint parse_loop (start : Z) (rp : list N) (st : ParseScan) : ParseScan :=
  match rp with
  | [] => st
  | code :: rest =>
      let i := Z.of_nat (length rest) in
      if i <? start then st
      else if is_sep code then
        if negb (matchedSlash st)
        then mkParseScan (startDot st) (i + 1) (end_ st) (matchedSlash st)
                         (preDotState st)                           (* break *)
        else parse_loop start rest st
      else parse_loop start rest (parse_char i code st)
  end.

Definition parse (path : jsstring) : ParsedPath :=
  match path with
  | [] => mkParsedPath [] [] [] [] []
  | c0 :: _ =>
      let isAbsolute := is_sep c0 in
      let root := if isAbsolute then [CHAR_FORWARD_SLASH] else [] in
      let start := if isAbsolute then 1 else 0 in
      let st := parse_loop start (rev path) (mkParseScan (-1) 0 (-1) true 0) in
      let dir :=
        if 0 <? startPart st then slice path 0 (startPart st - 1)
        else if isAbsolute then [CHAR_FORWARD_SLASH] else [] in
      if end_ st =? -1 then mkParsedPath root dir [] [] []
      else
        let start := if (startPart st =? 0) && isAbsolute then 1 else startPart st in
        if (startDot st =? -1)
           || (preDotState st =? 0)
           || ((preDotState st =? 1) && (startDot st =? end_ st - 1)
               && (startDot st =? startPart st + 1))
        then mkParsedPath root dir (slice path start (end_ st)) []
                          (slice path start (end_ st))
        else mkParsedPath root dir (slice path start (end_ st))
                          (slice path (startDot st) (end_ st))
                          (slice path start (startDot st))
  end.

(** *** [path.normalize] and [path.join]

    The library walks the path once, keeping the normalized prefix built so
    far; the same walk is written here over the segments between
    separators, the prefix being kept as the list of its segments, last
    segment first. *)
Fixpoint split_sep (s : jsstring) : list jsstring :=
  match s with
  | [] => [[]]
  | c :: r =>
      if is_sep c then [] :: split_sep r
      else match split_sep r with
           | seg :: segs => (c :: seg) :: segs
           | [] => [[c]]
           end
  end.

Definition jsstring_eqb (a b : jsstring) : bool :=
  if list_eq_dec N.eq_dec a b then true else false.

Definition normalize_segment (allowAboveRoot : bool) (res : list jsstring)
    (seg : jsstring) : list jsstring :=
  if jsstring_eqb seg [] || jsstring_eqb seg [CHAR_DOT] then res
  else if jsstring_eqb seg [CHAR_DOT; CHAR_DOT] then
    match res with
    | top :: res' =>
        if jsstring_eqb top [CHAR_DOT; CHAR_DOT]
        then if allowAboveRoot then seg :: res else res
        else res'
    | [] => if allowAboveRoot then [seg] else []
    end
  else seg :: res.

Fixpoint join_segments (segs : list jsstring) : jsstring :=
  match segs with
  | [] => []
  | [seg] => seg
  | seg :: rest => seg ++ CHAR_FORWARD_SLASH :: join_segments rest
  end.

Definition normalizeString (path : jsstring) (allowAboveRoot : bool) : jsstring :=
  join_segments
    (rev (fold_left (normalize_segment allowAboveRoot) (split_sep path) [])).

Definition normalize (path : jsstring) : jsstring :=
  match path with
  | [] => [CHAR_DOT]
  | c0 :: _ =>
      let isAbsolute := is_sep c0 in
      let trailingSeparator := ends_with CHAR_FORWARD_SLASH path in
      let path := normalizeString path (negb isAbsolute) in
      match path with
      | [] =>
          if isAbsolute then [CHAR_FORWARD_SLASH]
          else if trailingSeparator then [CHAR_DOT; CHAR_FORWARD_SLASH]
          else [CHAR_DOT]
      | _ :: _ =>
          let path := if trailingSeparator then path ++ [CHAR_FORWARD_SLASH] else path in
          if isAbsolute then CHAR_FORWARD_SLASH :: path else path
      end
  end.

(** The arguments of [join] that are not empty, put together with [/]. *)
Fixpoint joined (args : list jsstring) : option jsstring :=
  match args with
  | [] => None
  | arg :: rest =>
      match arg, joined rest with
      | [], j => j
      | _ :: _, None => Some arg
      | _ :: _, Some j => Some (arg ++ CHAR_FORWARD_SLASH :: j)
      end
  end.

Definition join (args : list jsstring) : jsstring :=
  match joined args with
  | None => [CHAR_DOT]
  | Some j => normalize j
  end.

End Path.

(** ** Numbers and bytes as text *)

(** [String(n)] for an integer [n] (a count of milliseconds, a size in
    bytes): its decimal digits, after a minus sign when negative. *)
Definition number_to_string (n : Z) : jsstring :=
  js (NilZero.string_of_int (Z.to_int n)).

Module Base64.

Definition alphabet : jsstring :=
  js "ABCDEFGHIJKLMNOPQRSTUVWXYZabcdefghijklmnopqrstuvwxyz0123456789+/".

Definition digit (i : N) : N := nth (N.to_nat i) alphabet 0%N.

Definition pad : N := 61.      (* = *)

(** [buffer.toString('base64')] *)
Fixpoint encode_units (bytes : list N) : jsstring :=
  (match bytes with
   | [] => []
   | [a] =>
       [digit (N.shiftr a 2); digit (N.shiftl (N.land a 3) 4); pad; pad]
   | [a; b] =>
       [digit (N.shiftr a 2);
        digit (N.lor (N.shiftl (N.land a 3) 4) (N.shiftr b 4));
        digit (N.shiftl (N.land b 15) 2); pad]
   | a :: b :: c :: rest =>
       digit (N.shiftr a 2)
       :: digit (N.lor (N.shiftl (N.land a 3) 4) (N.shiftr b 4))
       :: digit (N.lor (N.shiftl (N.land b 15) 2) (N.shiftr c 6))
       :: digit (N.land c 63)
       :: encode_units rest
   end)%N.

Definition encode (bytes : list Byte.byte) : jsstring :=
  encode_units (map Byte.to_N bytes).

End Base64.

(** ** The outside world *)

(** What a path of the file system holds. *)
Inductive Node :=
| File (content : list Byte.byte)
| Directory (size : Z).

(** The file system as the process sees it, and the clock. *)
Record World := mkWorld {
  files : jsstring -> option Node;
  dateNow : Z                              (* what [Date.now()] returns *)
}.

(** A thrown value.  The program tells failures apart by their message
    only; a value thrown by a collaborator may have none. *)
Record Thrown := mkThrown { message : option jsstring }.

Definition Error (msg : jsstring) : Thrown := mkThrown (Some msg).

(** [(error as Error).message ?? 'Unknown error'] *)
Definition message_or_unknown (error : Thrown) : jsstring :=
  match message error with
  | Some m => m
  | None => js "Unknown error"
  end.

Record V1ObjectMeta := mkMeta {
  meta_name : jsstring;
  meta_namespace : jsstring
}.

Record V1ConfigMap := mkConfigMap {
  apiVersion : jsstring;
  kind : jsstring;
  metadata : V1ObjectMeta;
  binaryData : list (jsstring * jsstring)
}.

Record CreateRequest := mkCreate { create_namespace : jsstring; create_body : V1ConfigMap }.
Record DeleteRequest := mkDelete { delete_name : jsstring; delete_namespace : jsstring }.

Inductive ExecOutcome :=
| ExecOk (stdout stderr : jsstring)
| ExecError (error : Thrown).

(** The collaborators: the shell that runs [k6], and the cluster client.
    Each decides the outcome of a call from the world it is made in, and
    leaves a world behind. *)
Record Env := mkEnv {
  exec : jsstring -> World -> ExecOutcome * World;
  makeApiClient : World -> option Thrown;
  createNamespacedConfigMap : CreateRequest -> World -> option Thrown * World;
  deleteNamespacedConfigMap : DeleteRequest -> World -> option Thrown * World
}.

(** What the program does to the outside world, in order. *)
Inductive Event :=
| EvExec (command : jsstring)
| EvConsole (text : jsstring)
| EvCreate (request : CreateRequest)
| EvDelete (request : DeleteRequest).

(** ** Computations: state, trace and exceptions *)

Record State := mkState { world : World; trace : list Event }.

Inductive Completion (A : Type) :=
| Returned (a : A)
| Threw (error : Thrown).
Arguments Returned {A} a.
Arguments Threw {A} error.

Definition M (A : Type) := State -> Completion A * State.

Definition ret {A} (a : A) : M A := fun s => (Returned a, s).

Definition throw {A} (error : Thrown) : M A := fun s => (Threw error, s).

Definition bind {A B} (m : M A) (k : A -> M B) : M B :=
  fun s =>
    match m s with
    | (Returned a, s') => k a s'
    | (Threw error, s') => (Threw error, s')
    end.

(** [try { m } catch (error) { handler }] *)
Definition try_catch {A} (m : M A) (handler : Thrown -> M A) : M A :=
  fun s =>
    match m s with
    | (Returned a, s') => (Returned a, s')
    | (Threw error, s') => handler error s'
    end.

Declare Scope js_scope.
Delimit Scope js_scope with js.
Notation "x <- m ;; k" := (bind m (fun x => k))
  (at level 61, m at next level, right associativity) : js_scope.
Notation "m ;; k" := (bind m (fun _ => k))
  (at level 61, right associativity) : js_scope.
Notation "a +++ b" := (@app N a b) (at level 60, right associativity) : js_scope.
Local Open Scope js_scope.

Definition emit (e : Event) : M unit :=
  fun s => (Returned tt, mkState (world s) (trace s ++ [e])).

Definition existsSync (path : jsstring) : M bool :=
  fun s => (Returned (match files (world s) path with Some _ => true | None => false end), s).

Definition Date_now : M Z := fun s => (Returned (dateNow (world s)), s).

(** [fs.promises.stat(path)], of which the program reads the size. *)
Definition node_size (n : Node) : Z :=
  match n with
  | File content => Z.of_nat (List.length content)
  | Directory size => size
  end.

Definition fs_stat (path : jsstring) : M Z :=
  fun s =>
    match files (world s) path with
    | Some n => (Returned (node_size n), s)
    | None => (Threw (Error (js "ENOENT: no such file or directory, stat '" +++ path +++ js "'")), s)
    end.

(** [fs.promises.readFile(path, 'base64')] *)
Definition fs_readFile_base64 (path : jsstring) : M jsstring :=
  fun s =>
    match files (world s) path with
    | Some (File content) => (Returned (Base64.encode content), s)
    | Some (Directory _) =>
        (Threw (Error (js "EISDIR: illegal operation on a directory, read")), s)
    | None => (Threw (Error (js "ENOENT: no such file or directory, open '" +++ path +++ js "'")), s)
    end.

Definition console (text : jsstring) : M unit := emit (EvConsole text).

(** ** The failures of the three operations, by their messages *)

Definition ScriptNotFound (scriptPath : jsstring) : Thrown :=
  Error (js "Script file not found at path: " +++ scriptPath).

Definition OutputDirectoryNotFound (outputDirectory : jsstring) : Thrown :=
  Error (js "Output directory does not exist at path: " +++ outputDirectory).

Definition ToolNotInstalled : Thrown :=
  Error (js "k6 is not installed. Please install k6 to archive scripts.").

Definition ArchiveCreationFailed (errorMessage : jsstring) : Thrown :=
  Error (js "Failed to archive the script: " +++ errorMessage).

Definition ArchiveNotFound (archivePath : jsstring) : Thrown :=
  Error (js "Archive file not found at path: " +++ archivePath).

Definition ArchiveTooLarge (size : Z) : Thrown :=
  Error (js "Archive file is too large to be stored in a configmap (size: "
         +++ number_to_string size +++ js " bytes)").

Definition RetractFailed (configMapName namespace errorMessage : jsstring) : Thrown :=
  Error (js "Failed to delete ConfigMap " +++ configMapName
         +++ js " from namespace " +++ namespace +++ js ": " +++ errorMessage).

(** ** Results *)

Record ArchiveResult := mkArchiveResult {
  archivePath : jsstring;
  archiveFilename : jsstring;
  scriptPath : jsstring;
  scriptFilename : jsstring
}.

Record ConfigMapResult := mkConfigMapResult {
  cm_namespace : jsstring;
  configMapName : jsstring;
  cm_archivePath : jsstring;
  cm_archiveFilename : jsstring
}.

(** [`archive-${sanitizedScriptName}-${Date.now()}.tar`], the file name the
    archive of [scriptPath] is given when the clock reads [now]. *)
Definition archive_filename (scriptPath : jsstring) (now : Z) : jsstring :=
  (* get the script name without extension to use as prefix for the archive file *)
  let scriptName := Path.name (Path.parse scriptPath) in
  let sanitizedScriptName := sanitizeText scriptName in
  js "archive-" +++ sanitizedScriptName +++ js "-" +++ number_to_string now +++ js ".tar".

(** [outputDirectory ?? '.'] *)
Definition directory_or_cwd (outputDirectory : option jsstring) : jsstring :=
  match outputDirectory with
  | Some d => d
  | None => js "."
  end.

(** ** Calls to the collaborators *)

Section Program.

Variable env : Env.

(** [execAsync(command)] *)
Definition execAsync (command : jsstring) : M (jsstring * jsstring) :=
  fun s =>
    let '(outcome, w) := exec env command (world s) in
    let s' := mkState w (trace s ++ [EvExec command]) in
    match outcome with
    | ExecOk stdout stderr => (Returned (stdout, stderr), s')
    | ExecError error => (Threw error, s')
    end.

(** [const kc = new k8s.KubeConfig(); kc.loadFromDefault();
     const k8sApi = kc.makeApiClient(k8s.CoreV1Api);] *)
Definition k8sApi : M unit :=
  fun s =>
    match makeApiClient env (world s) with
    | None => (Returned tt, s)
    | Some error => (Threw error, s)
    end.

Definition api_create (request : CreateRequest) : M unit :=
  fun s =>
    let '(outcome, w) := createNamespacedConfigMap env request (world s) in
    let s' := mkState w (trace s ++ [EvCreate request]) in
    match outcome with
    | None => (Returned tt, s')
    | Some error => (Threw error, s')
    end.

Definition api_delete (request : DeleteRequest) : M unit :=
  fun s =>
    let '(outcome, w) := deleteNamespacedConfigMap env request (world s) in
    let s' := mkState w (trace s ++ [EvDelete request]) in
    match outcome with
    | None => (Returned tt, s')
    | Some error => (Threw error, s')
    end.

(** ** The program *)

Definition archiveTest (scriptPath : jsstring) (outputDirectory : option jsstring)
  : M ArchiveResult :=
  (* Check if the script file exists *)
  found <- existsSync scriptPath ;;
  if negb found then throw (ScriptNotFound scriptPath) else
  match outputDirectory with
  | Some (c :: d) =>                    (* if (outputDirectory): a non-empty string *)
      (* Check if the output directory exists *)
      found <- existsSync (c :: d) ;;
      if negb found then throw (OutputDirectoryNotFound (c :: d)) else ret tt
  | Some [] | None => ret tt
  end ;;
  (* Check if k6 is installed *)
  try_catch (execAsync (js "k6 version") ;; ret tt)
            (fun _ => throw ToolNotInstalled) ;;
  (* Archive the script using k6 *)
  try_catch
    (now <- Date_now ;;
     let archiveOutput :=
       Path.join [directory_or_cwd outputDirectory; archive_filename scriptPath now] in
     let archiveCommand :=
       js "k6 archive -v -O " +++ archiveOutput +++ js " " +++ scriptPath in
     console (js "Archiving script with command: " +++ archiveCommand) ;;
     out <- execAsync archiveCommand ;;
     let '(stdout, stderr) := out in
     console (js "Standard Output: " +++ stdout) ;;
     console (js "Standard Error: " +++ stderr) ;;
     (* Check if the file was created successfully *)
     found <- existsSync archiveOutput ;;
     if negb found then throw (Error (js "Failed to create archive: " +++ stderr)) else
     console (js "Archive created successfully at: " +++ archiveOutput) ;;
     ret (mkArchiveResult archiveOutput (Path.basename archiveOutput)
                          scriptPath (Path.basename scriptPath)))
    (fun error => throw (ArchiveCreationFailed (message_or_unknown error))).

Definition createConfigMap (archiveResult : ArchiveResult) (namespace : jsstring)
  : M ConfigMapResult :=
  (* check if the archive file exists *)
  found <- existsSync (archivePath archiveResult) ;;
  if negb found then throw (ArchiveNotFound (archivePath archiveResult)) else
  (* check archive file size (should be less than 1MB for k8s configmap) *)
  size <- fs_stat (archivePath archiveResult) ;;
  if (size >? 1024 * 1024)%Z then throw (ArchiveTooLarge size) else
  k8sApi ;;
  let configMapName := Path.name (Path.parse (archiveFilename archiveResult)) in
  fileContent <- fs_readFile_base64 (archivePath archiveResult) ;;
  let configMap :=
    mkConfigMap (js "v1") (js "ConfigMap")
                (mkMeta configMapName namespace)
                [(archiveFilename archiveResult, fileContent)] in
  api_create (mkCreate namespace configMap) ;;
  console (js "ConfigMap " +++ configMapName +++ js " created in namespace " +++ namespace) ;;
  ret (mkConfigMapResult namespace configMapName
                         (archivePath archiveResult) (archiveFilename archiveResult)).

Definition deleteConfigMap (configMapName namespace : jsstring) : M unit :=
  k8sApi ;;
  try_catch
    (api_delete (mkDelete configMapName namespace) ;;
     console (js "ConfigMap " +++ configMapName +++ js " deleted from namespace " +++ namespace))
    (fun error =>
       throw (RetractFailed configMapName namespace (message_or_unknown error))).

End Program.

(** ** Vocabulary of the specification *)

(** A valid cluster resource name: lowercase alphanumerics, [-] and [.];
    neither [-] nor [.] first or last; no [--] and no [..]. *)
Definition valid_resource_name (s : jsstring) : bool :=
  forallb name_char s
  && negb (starts_with CHAR_HYPHEN s) && negb (starts_with CHAR_DOT s)
  && negb (ends_with CHAR_HYPHEN s) && negb (ends_with CHAR_DOT s)
  && negb (includes (js "--") s) && negb (includes (js "..") s).

(** No code unit of the class at either end. *)
Definition edge_free (cls : N -> bool) (s : jsstring) : Prop :=
  (forall c r, s = c :: r -> cls c = false) /\
  (forall r c, s = r ++ [c] -> cls c = false).

(** What the sanitizer establishes, and what it leaves alone. *)
Definition clean (s : jsstring) : Prop :=
  forallb name_char s = true /\
  edge_free not_alnum s /\
  includes [CHAR_HYPHEN; CHAR_HYPHEN] s = false /\
  includes [CHAR_DOT; CHAR_DOT] s = false.

(** A plain file name: not empty, free of separators. *)
Definition plain (f : jsstring) : Prop :=
  f <> [] /\ forallb (fun c => negb (Path.is_sep c)) f = true.

(** Letters and digits, as far as the sanitizer tells them from other
    characters: the ASCII ones, and the two letters outside ASCII whose lower
    case has an ASCII letter in it, U+0130 (capital I with dot above) and
    U+212A (the Kelvin sign).  Any other letter or digit outside ASCII is
    sanitized as a punctuation mark is. *)
Definition alphanumeric (c : N) : bool :=
  in_range 48 57 c || in_range 65 90 c || in_range 97 122 c
  || (c =? 304)%N || (c =? 8490)%N.

(** The value [Date.now()] returns in [archiveTest] started in state [s]:
    the clock of the world the version probe leaves behind. *)
Definition clock_reading (env : Env) (s : State) : Z :=
  dateNow (snd (exec env (js "k6 version") (world s))).

(** The requests of each kind found in a trace. *)
Definition deletes_of (evs : list Event) : list DeleteRequest :=
  flat_map (fun e => match e with EvDelete r => [r] | _ => [] end) evs.

Definition creates_of (evs : list Event) : list CreateRequest :=
  flat_map (fun e => match e with EvCreate r => [r] | _ => [] end) evs.

Definition execs_of (evs : list Event) : list jsstring :=
  flat_map (fun e => match e with EvExec c => [c] | _ => [] end) evs.

(** ** Sample worlds and collaborators *)

Module Sample.

(** Every path holds a two-byte file; the clock stands at a fixed
    millisecond. *)
Definition full_world : World :=
  mkWorld (fun _ => Some (File [Byte.x6b; Byte.x36])) 1762000000000.

(** Only the script exists. *)
Definition bare_world : World :=
  mkWorld (fun path => if Path.jsstring_eqb path (js "test.js")
                       then Some (File [Byte.x6b; Byte.x36]) else None)
          1762000000000.

(** The archive is as large as the ceiling allows, and one byte larger. *)
Definition limit_world : World :=
  mkWorld (fun _ => Some (File (repeat Byte.x00 (N.to_nat 1048576)))) 1762000000000.

Definition big_world : World :=
  mkWorld (fun _ => Some (File (repeat Byte.x00 (N.to_nat 1048577)))) 1762000000000.

(** Collaborators that always succeed, and leave the world as it is. *)
Definition obliging : Env :=
  mkEnv (fun _ w => (ExecOk [] [], w))
        (fun _ => None)
        (fun _ w => (None, w))
        (fun _ w => (None, w)).

(** Collaborators that always fail. *)
Definition failing : Env :=
  mkEnv (fun _ w => (ExecError (Error (js "k6: command not found")), w))
        (fun _ => None)
        (fun _ w => (Some (Error (js "HTTP request failed")), w))
        (fun _ w => (Some (Error (js "HTTP request failed")), w)).

(** The full world one millisecond later. *)
Definition later_world : World := mkWorld (files full_world) 1762000000001.

Definition start (w : World) : State := mkState w [].

Definition handmade : ArchiveResult :=
  mkArchiveResult (js "My_Archive.tar") (js "My_Archive.tar")
                  (js "My_Archive.js") (js "My_Archive.js").

Definition sample_archive : ArchiveResult :=
  mkArchiveResult (js "out/archive-sample-1762000000000.tar")
                  (js "archive-sample-1762000000000.tar")
                  (js "sample.js") (js "sample.js").

(** Archiving the same script twice in a row. *)
Definition archive_twice (env : Env) (script : jsstring) : M (ArchiveResult * ArchiveResult) :=
  first <- archiveTest env script None ;;
  second <- archiveTest env script None ;;
  ret (first, second).

End Sample.

(** ** More sample collaborators *)

Module Fixture.


(** No cluster client can be built. *)
Definition no_cluster : Env :=
  mkEnv (fun _ w => (ExecOk [] [], w))
        (fun _ => Some (Error (js "No active cluster!")))
        (fun _ w => (None, w))
        (fun _ w => (None, w)).

End Fixture.

(** ** The environment loader ([utils/env.ts])

    The loader reads a [.env] file, has [dotenv] parse it, and checks every
    variable against two patterns.  Resolving a path against the working
    directory, the file system and [dotenv] are collaborators, taken
    together as a [Host].  The module keeps the variables it has loaded in
    [cachedEnv]; [accesses] records what it has asked of the file system. *)

Module EnvLoader.

(** A regular expression without the [g] or [y] flag: [test] depends on the
    string only.  [text] is what a template literal makes of it. *)
Record RegExp := mkRegExp { test : jsstring -> bool; text : jsstring }.

Record Rules := mkRules { keyPattern : RegExp; valuePattern : RegExp }.

Definition DEFAULT_RULES : Rules :=
  mkRules
    (* /^[A-Z][A-Z0-9_]*$/ *)
    (mkRegExp (fun s => match s with
                        | [] => false
                        | c :: r =>
                            in_range 65 90 c
                            && forallb (fun x => in_range 65 90 x || in_range 48 57 x
                                                 || (x =? CHAR_UNDERSCORE)%N) r
                        end)
              (js "/^[A-Z][A-Z0-9_]*$/"))
    (* /^[\x20-\x7E]*$/ *)
    (mkRegExp (forallb (in_range 32 126)) (js "/^[\x20-\x7E]*$/")).

(** The own properties of a [Record<string, string>], in the order they
    were made.  (The engine lists keys that are array indices first; the
    properties below speak of membership, not of the order.) *)
Definition JsObject := list (jsstring * jsstring).

Fixpoint set_own (o : JsObject) (key val : jsstring) : JsObject :=
  match o with
  | [] => [(key, val)]
  | (k, v) :: rest =>
      if Path.jsstring_eqb k key then (k, val) :: rest
      else (k, v) :: set_own rest key val
  end.

Definition PROTO : jsstring := js "__proto__".

(** [o[key] = val] on an object made by [{}], with [val] a string: the
    inherited [__proto__] setter takes the assignment to that key and ignores
    a string; any other key becomes, or updates, an own property. *)
Definition set_property (o : JsObject) (key val : jsstring) : JsObject :=
  if Path.jsstring_eqb key PROTO then o else set_own o key val.

(** A value thrown by a collaborator: an [Error], or something else, of
    which [String] gives a text. *)
Inductive Raised :=
| RaisedError (message : jsstring)
| RaisedValue (asString : jsstring).

(** [error instanceof Error ? error.message : String(error)] *)
Definition raised_text (error : Raised) : jsstring :=
  match error with
  | RaisedError message => message
  | RaisedValue asString => asString
  end.

Record Host := mkHost {
  resolve_cwd : jsstring -> jsstring;        (* path.resolve(process.cwd(), p) *)
  fs_existsSync : jsstring -> bool;
  fs_readFileSync : jsstring -> Raised + jsstring;      (* (path, "utf-8") *)
  dotenv_parse : jsstring -> Raised + JsObject   (* Object.entries(parse(text)) *)
}.

Inductive Access :=
| AccessExists (path : jsstring)
| AccessRead (path : jsstring).

Record ModuleState := mkModuleState {
  cachedEnv : option JsObject;
  accesses : list Access
}.

Definition QUOTE : N := 34.
Definition NEWLINE : N := 10.

(** [lines.join("\n")] *)
Fixpoint join_lines (lines : list jsstring) : jsstring :=
  match lines with
  | [] => []
  | [line] => line
  | line :: rest => line ++ NEWLINE :: join_lines rest
  end.

(** One turn of the loop over [Object.entries(envVars)]. *)
Definition validate_entry (rules : Rules) (acc : list jsstring * JsObject)
    (entry : jsstring * jsstring) : list jsstring * JsObject :=
  let '(errors, result) := acc in
  let '(key, val) := entry in
  (* Validar nombre de la variable *)
  if negb (test (keyPattern rules) key) then
    (errors ++ [js "Nombre inv" ++ 225%N :: js "lido: " ++ QUOTE :: key ++ QUOTE
                :: js " (no cumple el patr" ++ 243%N :: js "n "
                ++ text (keyPattern rules) ++ js ")"],
     result)
  (* Validar que el valor no este vacio *)
  else match val with
  | [] => (errors ++ [js "Variable " ++ QUOTE :: key ++ QUOTE :: js " no tiene valor"], result)
  | _ :: _ =>
      (* Validar caracteres del valor *)
      if negb (test (valuePattern rules) val) then
        (errors ++ [js "Valor inv" ++ 225%N :: js "lido en " ++ QUOTE :: key ++ QUOTE
                    :: js " (contiene caracteres no permitidos)"],
         result)
      else (errors, set_property result key val)
  end.

Section Loader.

Variable host : Host.

Definition loadAndValidateEnv (envFilePath : option jsstring) (rules : option Rules)
    (m : ModuleState) : Completion JsObject * ModuleState :=
  let envFilePath := match envFilePath with Some p => p | None => js ".env" end in
  let rules := match rules with Some r => r | None => DEFAULT_RULES end in
  (* Validar que el archivo existe *)
  let absolutePath :=
    if starts_with CHAR_FORWARD_SLASH envFilePath      (* path.isAbsolute *)
    then envFilePath
    else resolve_cwd host envFilePath in
  let m := mkModuleState (cachedEnv m) (accesses m ++ [AccessExists absolutePath]) in
  if negb (fs_existsSync host absolutePath)
  then (Threw (Error (js "Archivo .env no encontrado: " ++ absolutePath)), m)
  else
    (* Leer el archivo .env *)
    let m := mkModuleState (cachedEnv m) (accesses m ++ [AccessRead absolutePath]) in
    match fs_readFileSync host absolutePath with
    | inl error =>
        (Threw (Error (js "Error al leer el archivo .env: " ++ raised_text error)), m)
    | inr fileContent =>
        (* Parsear el contenido del archivo .env *)
        match dotenv_parse host fileContent with
        | inl error =>
            (Threw (Error (js "Error al parsear el archivo .env: " ++ raised_text error)), m)
        | inr envVars =>
            (* Validar cada variable *)
            let '(errors, result) := fold_left (validate_entry rules) envVars ([], []) in
            match errors with
            | _ :: _ =>
                (Threw (Error (js "Errores en variables de ambiente:" ++ NEWLINE
                               :: join_lines (map (fun e => js "- " ++ e) errors))), m)
            | [] =>
                (* Cachear las variables cargadas *)
                (Returned result, mkModuleState (Some result) (accesses m))
            end
        end
    end.

Definition ensureEnvLoaded (m : ModuleState) : Completion JsObject * ModuleState :=
  match cachedEnv m with
  | Some env => (Returned env, m)
  | None =>
      match loadAndValidateEnv None None m with
      | (Returned env, m') => (Returned env, mkModuleState (Some env) (accesses m'))
      | (Threw error, m') => (Threw error, m')
      end
  end.

Definition resetEnvCache (m : ModuleState) : ModuleState := mkModuleState None (accesses m).

Definition getAllEnvVars (m : ModuleState) : Completion JsObject * ModuleState :=
  match ensureEnvLoaded m with
  | (Returned env, m') => (Returned env, m')          (* { ...env } *)
  | (Threw error, m') => (Threw error, m')
  end.

End Loader.

(** Whether the loop accepts a variable, and the complaint it files when it
    does not. *)
Definition accepted (rules : Rules) (entry : jsstring * jsstring) : bool :=
  test (keyPattern rules) (fst entry)
  && negb (Path.jsstring_eqb (snd entry) [])
  && test (valuePattern rules) (snd entry).

Definition rules_or_default (rules : option Rules) : Rules :=
  match rules with Some r => r | None => DEFAULT_RULES end.

(** The complaints one turn of the loop files about a variable: none, or
    one. *)
Definition complaints (rules : Rules) (entry : jsstring * jsstring) : list jsstring :=
  fst (validate_entry rules ([], []) entry).

(** The path the loader looks at. *)
Definition absolute_path (host : Host) (envFilePath : option jsstring) : jsstring :=
  let p := match envFilePath with Some p => p | None => js ".env" end in
  if starts_with CHAR_FORWARD_SLASH p then p else resolve_cwd host p.

(** A [.env] file at [/app/.env] with two variables, seen from [/app]. *)
Definition sample_host (entries : JsObject) : Host :=
  mkHost (fun p => js "/app/" ++ p)
         (fun p => Path.jsstring_eqb p (js "/app/.env"))
         (fun _ => inr (js "contents"))
         (fun _ => inr entries).

Definition fresh : ModuleState := mkModuleState None [].

Definition sample_entries : JsObject :=
  [(js "API_URL", js "https://example.test"); (js "RETRIES", js "3")].

(** A lower-case name, a name without a value, a control character in a
    value, and one variable that is in order. *)
Definition bad_entries : JsObject :=
  [(js "api_url", js "https://example.test"); (js "TOKEN", []);
   (js "RETRIES", js "3"); (js "NAME", [9%N])].

End EnvLoader.

(** * Properties *)

(** ** The definitions at work *)

Example sanitize_sample :
  sanitizeText (js "k6_script_sample_2") = js "k6-script-sample-2".
Proof. reflexivity. Qed.

Example sanitize_mixed : sanitizeText (js "__My  Test..v2--") = js "my-test.v2".
Proof. reflexivity. Qed.

Example sanitize_dot_hyphen : sanitizeText (js "a-.-b.-.c") = js "a-.-b.-.c".
Proof. reflexivity. Qed.

Example sanitize_kelvin : sanitizeText [8490%N] = js "k".
Proof. reflexivity. Qed.

Example sanitize_dotted_capital_i : sanitizeText [304%N] = js "i".
Proof. reflexivity. Qed.

Example basename_sample : Path.basename (js "/tmp/out/archive-x-1.tar//") = js "archive-x-1.tar".
Proof. reflexivity. Qed.

Example parse_names :
  map (fun p => Path.name (Path.parse (js p)))
      ["/home/u/k6_script_sample_2.js"; "archive-a.b-12.tar"; ".bashrc"; "dir/"; ".."; "/"]%string
  = map js ["k6_script_sample_2"; "archive-a.b-12"; ".bashrc"; "dir"; ".."; ""]%string.
Proof. reflexivity. Qed.

Example join_samples :
  map Path.join
      [[js "."; js "a.tar"]; [js ""; js "a.tar"]; [js "/tmp/../out/"; js "a.tar"];
       [js "../.."; js "a.tar"]; [js "out//x/."; js "a.tar"]]
  = map js ["a.tar"; "a.tar"; "/out/a.tar"; "../../a.tar"; "out/x/a.tar"]%string.
Proof. reflexivity. Qed.

Example number_samples :
  map number_to_string [0; 1762000000000; -12]%Z = map js ["0"; "1762000000000"; "-12"]%string.
Proof. reflexivity. Qed.

Example base64_samples :
  map Base64.encode
      [[Byte.x4d; Byte.x61; Byte.x6e]; [Byte.x4d; Byte.x61]; [Byte.x4d]; []]
  = map js ["TWFu"; "TWE="; "TQ=="; ""]%string.
Proof. reflexivity. Qed.

(** Archiving [k6_script_sample_2.js] and publishing the archive to
    [default]. *)
Example end_to_end :
  exists r s' cm s'',
    archiveTest Sample.obliging (js "test/samples/k6_script_sample_2.js") None
                (Sample.start Sample.full_world) = (Returned r, s') /\
    archiveFilename r = js "archive-k6-script-sample-2-1762000000000.tar" /\
    createConfigMap Sample.obliging r (js "default") s' = (Returned cm, s'') /\
    configMapName cm = js "archive-k6-script-sample-2-1762000000000" /\
    execs_of (trace s'')
    = [js "k6 version";
       js "k6 archive -v -O archive-k6-script-sample-2-1762000000000.tar test/samples/k6_script_sample_2.js"].
Proof.
  do 4 eexists. split; [vm_compute; reflexivity|]. split; [reflexivity|].
  split; [vm_compute; reflexivity|]. split; reflexivity.
Qed.

(** ** Character classes *)

Ltac class_cases :=
  unfold name_char, not_name_char, not_alnum, lower_alnum, dot_or_hyphen, is_char,
    in_range, CHAR_DOT, CHAR_HYPHEN, CHAR_UNDERSCORE, CHAR_FORWARD_SLASH in *;
  simpl in *;
  repeat (match goal with
          | |- context [N.leb ?a ?b] => destruct (N.leb_spec a b)
          | |- context [N.eqb ?a ?b] => destruct (N.eqb_spec a b)
          | H : context [N.leb ?a ?b] |- _ => destruct (N.leb_spec a b)
          | H : context [N.eqb ?a ?b] |- _ => destruct (N.eqb_spec a b)
          end; simpl in *);
  try congruence; try lia.

Lemma alnum_not_dot_or_hyphen c : not_alnum c = false -> dot_or_hyphen c = false.
Proof. class_cases. Qed.

Lemma lower_unit_name_char c : name_char c = true -> lower_unit c = [c].
Proof. unfold lower_unit. class_cases. Qed.

Lemma name_char_not_underscore c : name_char c = true -> is_char CHAR_UNDERSCORE c = false.
Proof. class_cases. Qed.

Lemma name_char_not_sep c : name_char c = true -> Path.is_sep c = false.
Proof. unfold Path.is_sep. class_cases. Qed.

(** ** The replacements *)

Section Replacements.

Variable cls : N -> bool.

Lemma replace_each_id r s :
  forallb (fun c => negb (cls c)) s = true -> replace_each cls r s = s.
Proof.
  induction s as [|c s IH]; simpl; intros H; [reflexivity|].
  apply andb_prop in H as [Hc Hs].
  destruct (cls c); [discriminate|]. now rewrite IH.
Qed.

Lemma strip_leading_first s c r : strip_leading cls s = c :: r -> cls c = false.
Proof.
  induction s as [|x s IH]; simpl; [discriminate|].
  destruct (cls x) eqn:Hx; [exact IH|].
  intros [= <- _]. exact Hx.
Qed.

Lemma strip_trailing_nil s : strip_trailing cls s = [] -> forallb cls s = true.
Proof.
  destruct s as [|x s]; [reflexivity|].
  cbn [strip_trailing]. destruct (forallb cls (x :: s)); [reflexivity|discriminate].
Qed.

Lemma strip_trailing_keeps_first s c r :
  strip_trailing cls s = c :: r -> exists r', s = c :: r'.
Proof.
  destruct s as [|x s]; [discriminate|].
  cbn [strip_trailing]. destruct (forallb cls (x :: s)); [discriminate|].
  intros [= <- _]. eauto.
Qed.

Lemma strip_trailing_last s r c : strip_trailing cls s = r ++ [c] -> cls c = false.
Proof.
  revert r. induction s as [|x s IH]; intros r; [destruct r; discriminate|].
  cbn [strip_trailing]. destruct (forallb cls (x :: s)) eqn:Hall.
  - destruct r; discriminate.
  - destruct r as [|y r]; simpl.
    + intros [= <- Hnil]. apply strip_trailing_nil in Hnil.
      simpl in Hall. rewrite Hnil, andb_true_r in Hall. exact Hall.
    + intros [= _ Hs]. eapply IH. exact Hs.
Qed.

Lemma strip_trailing_id s :
  (forall r c, s = r ++ [c] -> cls c = false) -> strip_trailing cls s = s.
Proof.
  induction s as [|x s IH]; intros Hlast; [reflexivity|].
  cbn [strip_trailing]. destruct (forallb cls (x :: s)) eqn:Hall.
  - exfalso. destruct (exists_last (l := x :: s)) as (r & c & Hrc); [discriminate|].
    pose proof (Hlast _ _ Hrc) as Hc.
    rewrite Hrc, forallb_app in Hall. simpl in Hall.
    rewrite Hc, andb_false_r in Hall. discriminate.
  - f_equal. apply IH. intros r c ->. apply (Hlast (x :: r) c). reflexivity.
Qed.

Lemma strip_edges_edge_free s : edge_free cls (strip_edges cls s).
Proof.
  unfold strip_edges. split.
  - intros c r H. apply strip_trailing_keeps_first in H as H'. destruct H' as [r' H'].
    eapply strip_leading_first. exact H'.
  - intros r c H. eapply strip_trailing_last. exact H.
Qed.

Lemma strip_edges_id s : edge_free cls s -> strip_edges cls s = s.
Proof.
  intros [Hfirst Hlast]. unfold strip_edges.
  assert (strip_leading cls s = s) as ->.
  { destruct s as [|c r]; [reflexivity|]. simpl. now rewrite (Hfirst c r). }
  now apply strip_trailing_id.
Qed.

Variable P : N -> bool.

Lemma strip_leading_forallb s : forallb P s = true -> forallb P (strip_leading cls s) = true.
Proof.
  induction s as [|x s IH]; simpl; [auto|]. intros H.
  apply andb_prop in H as [Hx Hs]. destruct (cls x); [auto|].
  simpl. now rewrite Hx, Hs.
Qed.

Lemma strip_trailing_forallb s : forallb P s = true -> forallb P (strip_trailing cls s) = true.
Proof.
  induction s as [|x s IH]; [auto|]. intros H.
  cbn [strip_trailing]. destruct (forallb cls (x :: s)); [reflexivity|].
  simpl in *. apply andb_prop in H as [Hx Hs]. now rewrite Hx, IH.
Qed.

Lemma strip_edges_forallb s : forallb P s = true -> forallb P (strip_edges cls s) = true.
Proof. intros H. now apply strip_trailing_forallb, strip_leading_forallb. Qed.

End Replacements.

Section Collapse.

Variable d : N.

Lemma starts_with_hd c s : starts_with c s = true <-> hd_error s = Some c.
Proof.
  destruct s as [|x s]; simpl; [split; discriminate|].
  rewrite N.eqb_eq. split; [now intros ->|now intros [= ->]].
Qed.

Lemma collapse_hd s : hd_error (collapse d s) = hd_error s.
Proof.
  induction s as [|x s IH]; [reflexivity|]. simpl.
  destruct ((x =? d)%N && starts_with d s) eqn:Hrun; [|reflexivity].
  apply andb_prop in Hrun as [Hx Hs].
  apply N.eqb_eq in Hx. apply starts_with_hd in Hs.
  rewrite IH, Hs. now subst.
Qed.

Lemma collapse_nil s : collapse d s = [] -> s = [].
Proof.
  intros H. pose proof (collapse_hd s) as Hhd. rewrite H in Hhd.
  destruct s; [reflexivity|discriminate].
Qed.

Lemma collapse_last s r c : collapse d s = r ++ [c] -> exists r', s = r' ++ [c].
Proof.
  revert r. induction s as [|x s IH]; intros r; [destruct r; discriminate|].
  simpl. destruct ((x =? d)%N && starts_with d s).
  - intros H. destruct (IH _ H) as [r' ->]. now exists (x :: r').
  - destruct r as [|y r]; simpl; intros [= <- H].
    + apply collapse_nil in H. subst. now exists [].
    + destruct (IH _ H) as [r' ->]. now exists (x :: r').
Qed.

Lemma collapse_edge_free cls s : edge_free cls s -> edge_free cls (collapse d s).
Proof.
  intros [Hfirst Hlast]. split.
  - intros c r H. pose proof (collapse_hd s) as Hhd. rewrite H in Hhd.
    destruct s as [|x s']; [discriminate|]. injection Hhd as <-. eapply Hfirst; eauto.
  - intros r c H. apply collapse_last in H as [r' ->]. eapply Hlast; eauto.
Qed.

Lemma is_prefix_pair a b x s :
  is_prefix [a; b] (x :: s) = true <-> a = x /\ hd_error s = Some b.
Proof.
  simpl. destruct s as [|y s]; simpl.
  - rewrite andb_false_r. split; [discriminate|intros [_ H]; discriminate].
  - rewrite andb_true_r, andb_true_iff, !N.eqb_eq.
    split; [intros [-> ->]; auto|intros [-> [= ->]]; auto].
Qed.

Lemma includes_cons p x s :
  includes p (x :: s) = is_prefix p (x :: s) || includes p s.
Proof. reflexivity. Qed.

(** Collapsing brings no two code units together that were not already
    side by side. *)
Lemma collapse_pairs a b s :
  includes [a; b] (collapse d s) = true -> includes [a; b] s = true.
Proof.
  induction s as [|x s IH]; [auto|].
  rewrite (includes_cons _ x s). cbn [collapse].
  destruct ((x =? d)%N && starts_with d s).
  - intros H. rewrite (IH H). apply orb_true_r.
  - rewrite includes_cons. intros H. apply orb_prop in H as [H|H].
    + apply is_prefix_pair in H as [-> Hb]. rewrite collapse_hd in Hb.
      apply orb_true_intro. left. apply is_prefix_pair. auto.
    + rewrite (IH H). apply orb_true_r.
Qed.

Lemma collapse_no_pair a b s :
  includes [a; b] s = false -> includes [a; b] (collapse d s) = false.
Proof.
  intros H. destruct (includes [a; b] (collapse d s)) eqn:E; [|reflexivity].
  apply collapse_pairs in E. congruence.
Qed.

Lemma collapse_no_run s : includes [d; d] (collapse d s) = false.
Proof.
  induction s as [|x s IH]; [reflexivity|]. cbn [collapse].
  destruct ((x =? d)%N && starts_with d s) eqn:Hrun; [exact IH|].
  rewrite includes_cons, IH, orb_false_r.
  destruct (is_prefix [d; d] (x :: collapse d s)) eqn:E; [|reflexivity].
  apply is_prefix_pair in E as [<- Hd]. rewrite collapse_hd in Hd.
  apply starts_with_hd in Hd. rewrite Hd, N.eqb_refl in Hrun. discriminate.
Qed.

Lemma collapse_id s : includes [d; d] s = false -> collapse d s = s.
Proof.
  induction s as [|x s IH]; [reflexivity|].
  rewrite includes_cons. intros H. apply orb_false_elim in H as [Hp Hs].
  cbn [collapse]. destruct ((x =? d)%N && starts_with d s) eqn:Hrun.
  - apply andb_prop in Hrun as [Hx Hd]. apply N.eqb_eq in Hx.
    apply starts_with_hd in Hd.
    assert (is_prefix [d; d] (x :: s) = true) by (apply is_prefix_pair; auto).
    congruence.
  - now rewrite IH.
Qed.

Lemma collapse_forallb P s : forallb P s = true -> forallb P (collapse d s) = true.
Proof.
  induction s as [|x s IH]; [auto|]. simpl. intros H.
  apply andb_prop in H as [Hx Hs].
  destruct ((x =? d)%N && starts_with d s); [auto|]. simpl. now rewrite Hx, IH.
Qed.

End Collapse.

(** ** The sanitizer *)

Lemma toLowerCase_name_chars s : forallb name_char s = true -> toLowerCase s = s.
Proof.
  unfold toLowerCase. induction s as [|c s IH]; simpl; [reflexivity|]. intros H.
  apply andb_prop in H as [Hc Hs]. now rewrite (lower_unit_name_char _ Hc), IH.
Qed.

Lemma replace_not_name_char s :
  forallb name_char (replace_each not_name_char CHAR_HYPHEN s) = true.
Proof.
  unfold replace_each. induction s as [|c s IH]; simpl; [reflexivity|].
  rewrite IH, andb_true_r. unfold not_name_char.
  destruct (name_char c) eqn:Hc; simpl; [exact Hc|reflexivity].
Qed.

Lemma edge_free_alnum_dot_or_hyphen s :
  edge_free not_alnum s -> edge_free dot_or_hyphen s.
Proof.
  intros [Hfirst Hlast].
  split; intros; apply alnum_not_dot_or_hyphen; eauto.
Qed.

Lemma sanitizeText_clean s : clean (sanitizeText s).
Proof.
  unfold sanitizeText.
  set (t := replace_each not_name_char CHAR_HYPHEN _).
  set (u := strip_edges not_alnum t).
  set (v := collapse CHAR_DOT (collapse CHAR_HYPHEN u)).
  assert (Hedge : edge_free not_alnum v).
  { unfold v, u. do 2 apply collapse_edge_free. apply strip_edges_edge_free. }
  rewrite (strip_edges_id (edge_free_alnum_dot_or_hyphen Hedge)).
  repeat split.
  - unfold v, u, t. do 2 apply collapse_forallb. apply strip_edges_forallb.
    apply replace_not_name_char.
  - apply Hedge.
  - apply Hedge.
  - unfold v. apply collapse_no_pair, collapse_no_run.
  - unfold v. apply collapse_no_run.
Qed.

Lemma forallb_impl {A} (P Q : A -> bool) l :
  (forall a, P a = true -> Q a = true) -> forallb P l = true -> forallb Q l = true.
Proof.
  intros HPQ. induction l as [|a l IH]; simpl; [auto|]. intros H.
  apply andb_prop in H as [Ha Hl]. now rewrite (HPQ _ Ha), IH.
Qed.

Lemma clean_fixed s : clean s -> sanitizeText s = s.
Proof.
  intros (Hchars & Hedge & Hhy & Hdot). unfold sanitizeText.
  rewrite (toLowerCase_name_chars _ Hchars).
  rewrite (@replace_each_id (is_char CHAR_UNDERSCORE) CHAR_HYPHEN s).
  2:{ eapply forallb_impl; [|exact Hchars]. intros a Ha.
      now rewrite (name_char_not_underscore _ Ha). }
  rewrite (@replace_each_id not_name_char CHAR_HYPHEN s).
  2:{ eapply forallb_impl; [|exact Hchars]. intros a Ha.
      unfold not_name_char. now rewrite Ha. }
  rewrite (strip_edges_id Hedge), (collapse_id _ _ Hhy), (collapse_id _ _ Hdot).
  apply strip_edges_id, edge_free_alnum_dot_or_hyphen, Hedge.
Qed.

Lemma edge_free_starts_with cls c s :
  edge_free cls s -> cls c = true -> starts_with c s = false.
Proof.
  intros [Hfirst _] Hc. destruct s as [|x s]; [reflexivity|]. simpl.
  destruct (N.eqb_spec x c) as [->|]; [|reflexivity].
  rewrite (Hfirst c s eq_refl) in Hc. discriminate.
Qed.

Lemma edge_free_ends_with cls c s :
  edge_free cls s -> cls c = true -> ends_with c s = false.
Proof.
  intros [_ Hlast] Hc. unfold ends_with.
  destruct (rev s) as [|x r] eqn:Hrev; [reflexivity|]. simpl.
  destruct (N.eqb_spec x c) as [->|]; [|reflexivity].
  apply (f_equal (@rev N)) in Hrev. rewrite rev_involutive in Hrev. simpl in Hrev.
  rewrite (Hlast _ _ Hrev) in Hc. discriminate.
Qed.

Lemma clean_valid s : clean s -> valid_resource_name s = true.
Proof.
  intros (Hchars & Hedge & Hhy & Hdot). unfold valid_resource_name.
  rewrite Hchars.
  rewrite !(edge_free_starts_with _ Hedge), !(edge_free_ends_with _ Hedge) by reflexivity.
  change (js "--") with [CHAR_HYPHEN; CHAR_HYPHEN].
  change (js "..") with [CHAR_DOT; CHAR_DOT].
  now rewrite Hhy, Hdot.
Qed.

Corollary sanitizeText_valid s : valid_resource_name (sanitizeText s) = true.
Proof. apply clean_valid, sanitizeText_clean. Qed.

(** C2: sanitizing twice is sanitizing once, whatever the string. *)
Theorem sanitizeText_idempotent (s : jsstring) :
  sanitizeText (sanitizeText s) = sanitizeText s.
Proof. apply clean_fixed, sanitizeText_clean. Qed.

(** C3: the sanitized string begins and ends with neither [-] nor [.], and
    holds neither [--] nor [..]. *)
Theorem sanitizeText_edges_and_runs (s : jsstring) :
  starts_with CHAR_HYPHEN (sanitizeText s) = false /\
  starts_with CHAR_DOT (sanitizeText s) = false /\
  ends_with CHAR_HYPHEN (sanitizeText s) = false /\
  ends_with CHAR_DOT (sanitizeText s) = false /\
  includes (js "--") (sanitizeText s) = false /\
  includes (js "..") (sanitizeText s) = false.
Proof.
  destruct (sanitizeText_clean s) as (_ & Hedge & Hhy & Hdot).
  repeat split;
    try (eapply edge_free_starts_with; [exact Hedge|reflexivity]);
    try (eapply edge_free_ends_with; [exact Hedge|reflexivity]);
    assumption.
Qed.

(** ** Paths *)

Section PathFacts.

Import Path.
Local Open Scope Z_scope.

Lemma forallb_rev {A} (P : A -> bool) l : forallb P (rev l) = forallb P l.
Proof.
  induction l as [|a l IH]; simpl; [reflexivity|].
  rewrite forallb_app, IH. simpl. rewrite andb_true_r. apply andb_comm.
Qed.

Lemma slice_suffix p f :
  slice (p ++ f) (Z.of_nat (List.length p)) (Z.of_nat (List.length (p ++ f))) = f.
Proof.
  unfold slice. rewrite length_app, Nat2Z.id.
  replace (Z.to_nat _) with (List.length f) by lia.
  rewrite skipn_app, skipn_all, Nat.sub_diag. simpl. apply firstn_all.
Qed.

Lemma slice_prefix p f : slice (p ++ f) 0 (Z.of_nat (List.length p)) = p.
Proof.
  unfold slice. simpl. rewrite Z.sub_0_r, Nat2Z.id, firstn_app, Nat.sub_diag, firstn_all.
  simpl. apply app_nil_r.
Qed.

Lemma basename_loop_skip l rest st :
  forallb (fun c => negb (is_sep c)) l = true -> b_end st <> -1 ->
  basename_loop (l ++ rest) st = basename_loop rest st.
Proof.
  induction l as [|c l IH]; simpl; [reflexivity|]. intros H Hend.
  apply andb_prop in H as [Hc Hl]. apply negb_true_iff in Hc. rewrite Hc.
  apply Z.eqb_neq in Hend. rewrite Hend. apply Z.eqb_neq in Hend. now apply IH.
Qed.

(** The base name of a path that ends with a plain file name, after a
    separator or with nothing before it, is that file name. *)
Lemma basename_plain p f :
  plain f -> p = [] \/ (exists p', p = p' ++ [CHAR_FORWARD_SLASH]) ->
  basename (p ++ f) = f.
Proof.
  intros [Hne Hf] Hp. unfold basename. rewrite rev_app_distr.
  destruct (rev f) as [|c rf] eqn:Hrev.
  { apply (f_equal (@rev N)) in Hrev. rewrite rev_involutive in Hrev. contradiction. }
  assert (Hrf : forallb (fun c => negb (is_sep c)) (c :: rf) = true).
  { rewrite <- Hrev, forallb_rev. exact Hf. }
  simpl in Hrf. apply andb_prop in Hrf as [Hc Hrf]. apply negb_true_iff in Hc.
  cbn [app basename_loop b_end b_start b_matchedSlash]. rewrite Hc.
  change (-1 =? -1) with true. cbv iota.
  rewrite basename_loop_skip by (simpl; auto; lia).
  assert (Hlen : Z.of_nat (List.length (rf ++ rev p)) + 1 = Z.of_nat (List.length (p ++ f))).
  { rewrite <- (rev_involutive f), Hrev. simpl.
    repeat (rewrite ?length_app, ?length_rev; simpl). lia. }
  rewrite Hlen.
  assert (Hpos : (Z.of_nat (List.length (p ++ f)) =? -1) = false) by (apply Z.eqb_neq; lia).
  destruct Hp as [->|[p' ->]].
  - cbn [rev basename_loop b_end b_start]. rewrite Hpos. apply (slice_suffix [] f).
  - rewrite rev_app_distr. cbn [rev app basename_loop b_end b_start b_matchedSlash].
    unfold is_sep at 1. rewrite N.eqb_refl. cbn [negb b_end b_start]. rewrite Hpos.
    rewrite length_rev.
    replace (Z.of_nat (List.length p') + 1) with (Z.of_nat (List.length (p' ++ [CHAR_FORWARD_SLASH])))
      by (rewrite length_app; simpl; lia).
    apply slice_suffix.
Qed.

(** *** [join] *)

Lemma jsstring_eqb_eq a b : jsstring_eqb a b = true <-> a = b.
Proof.
  unfold jsstring_eqb. destruct (list_eq_dec N.eq_dec a b); split; auto; discriminate.
Qed.

Lemma jsstring_eqb_neq a b : a <> b -> jsstring_eqb a b = false.
Proof.
  intros H. destruct (jsstring_eqb a b) eqn:E; [|reflexivity].
  apply jsstring_eqb_eq in E. contradiction.
Qed.

Lemma split_sep_nonempty s : split_sep s <> [].
Proof.
  destruct s as [|c s]; simpl; [discriminate|].
  destruct (is_sep c); [discriminate|]. destruct (split_sep s); discriminate.
Qed.

Lemma split_sep_plain f :
  forallb (fun c => negb (is_sep c)) f = true -> split_sep f = [f].
Proof.
  induction f as [|c f IH]; simpl; [reflexivity|]. intros H.
  apply andb_prop in H as [Hc Hf]. apply negb_true_iff in Hc. now rewrite Hc, IH.
Qed.

Lemma split_sep_app a b :
  split_sep (a ++ CHAR_FORWARD_SLASH :: b) = split_sep a ++ split_sep b.
Proof.
  induction a as [|c a IH]; simpl.
  - reflexivity.
  - destruct (is_sep c); rewrite IH; [reflexivity|].
    destruct (split_sep a) eqn:E; [now apply split_sep_nonempty in E|reflexivity].
Qed.

Lemma normalize_segment_plain allowAboveRoot res f :
  f <> [] -> f <> [CHAR_DOT] -> f <> [CHAR_DOT; CHAR_DOT] ->
  normalize_segment allowAboveRoot res f = f :: res.
Proof.
  intros H0 H1 H2. unfold normalize_segment.
  now rewrite !jsstring_eqb_neq.
Qed.

Lemma join_segments_snoc l f :
  exists p, join_segments (l ++ [f]) = p ++ f /\
            (p = [] \/ exists p', p = p' ++ [CHAR_FORWARD_SLASH]).
Proof.
  induction l as [|seg l (p & IH & Hp)].
  - exists []. auto.
  - exists (seg ++ CHAR_FORWARD_SLASH :: p). split.
    + change ((seg :: l) ++ [f]) with (seg :: (l ++ [f])).
      cbn [join_segments]. destruct (l ++ [f]) eqn:E; [now destruct l|].
      rewrite IH, <- app_assoc. reflexivity.
    + right. destruct Hp as [->|[p' ->]].
      * now exists seg.
      * exists (seg ++ CHAR_FORWARD_SLASH :: p'). now rewrite <- app_assoc.
Qed.

Lemma ends_with_app c x f : f <> [] -> ends_with c (x ++ f) = ends_with c f.
Proof.
  intros Hf. unfold ends_with. rewrite rev_app_distr.
  destruct (rev f) eqn:E; [|reflexivity].
  apply (f_equal (@rev N)) in E. rewrite rev_involutive in E. contradiction.
Qed.

Lemma ends_with_plain f : plain f -> ends_with CHAR_FORWARD_SLASH f = false.
Proof.
  intros [_ Hf]. unfold ends_with. rewrite <- forallb_rev in Hf.
  destruct (rev f) as [|c r]; [reflexivity|]. simpl in *.
  apply andb_prop in Hf as [Hc _]. now apply negb_true_iff in Hc.
Qed.

(** A plain file name other than [.] and [..], put after a separator or
    alone, is still the end of the path once normalized. *)
Lemma normalize_plain x f :
  plain f -> f <> [CHAR_DOT] -> f <> [CHAR_DOT; CHAR_DOT] ->
  x = [] \/ (exists d, x = d ++ [CHAR_FORWARD_SLASH]) ->
  exists p, normalize (x ++ f) = p ++ f /\
            (p = [] \/ exists p', p = p' ++ [CHAR_FORWARD_SLASH]).
Proof.
  intros Hplain H1 H2 Hx. pose proof Hplain as [H0 Hf].
  assert (Hsplit : exists segs, split_sep (x ++ f) = segs ++ [f]).
  { destruct Hx as [->|[d ->]].
    - exists []. now apply split_sep_plain.
    - exists (split_sep d). rewrite <- app_assoc. simpl.
      now rewrite split_sep_app, (split_sep_plain _ Hf). }
  destruct Hsplit as [segs Hsplit].
  assert (Hends : ends_with CHAR_FORWARD_SLASH (x ++ f) = false).
  { now rewrite (ends_with_app _ x H0), (ends_with_plain Hplain). }
  unfold normalize. destruct (x ++ f) as [|c0 j] eqn:Hj.
  { destruct x; [simpl in Hj; contradiction|discriminate]. }
  rewrite Hends. unfold normalizeString. rewrite Hsplit, fold_left_app. cbn [fold_left].
  rewrite normalize_segment_plain by assumption. cbn [rev].
  destruct (join_segments_snoc
              (rev (fold_left (normalize_segment (negb (is_sep c0))) segs [])) f)
    as (p & -> & Hp).
  destruct (p ++ f) as [|c1 body] eqn:Hbody.
  { destruct p; [simpl in Hbody; contradiction|discriminate]. }
  rewrite <- Hbody. destruct (is_sep c0).
  - exists (CHAR_FORWARD_SLASH :: p). split; [reflexivity|]. right.
    destruct Hp as [->|[p' ->]]; [now exists []|now exists (CHAR_FORWARD_SLASH :: p')].
  - exists p. auto.
Qed.

Lemma join_plain d f :
  plain f -> f <> [CHAR_DOT] -> f <> [CHAR_DOT; CHAR_DOT] ->
  exists p, join [d; f] = p ++ f /\
            (p = [] \/ exists p', p = p' ++ [CHAR_FORWARD_SLASH]).
Proof.
  intros Hplain H1 H2. pose proof Hplain as [H0 _]. unfold join. cbn [joined].
  destruct f as [|c f']; [contradiction|]. set (f := c :: f') in *.
  destruct d as [|c0 d'].
  - apply (normalize_plain (x := [])); auto.
  - replace ((c0 :: d') ++ CHAR_FORWARD_SLASH :: f)
      with (((c0 :: d') ++ [CHAR_FORWARD_SLASH]) ++ f)
      by (now rewrite <- app_assoc).
    apply normalize_plain; eauto.
Qed.

Lemma basename_join d f :
  plain f -> f <> [CHAR_DOT] -> f <> [CHAR_DOT; CHAR_DOT] ->
  basename (join [d; f]) = f.
Proof.
  intros Hplain H1 H2. destruct (join_plain d Hplain H1 H2) as (p & -> & Hp).
  now apply basename_plain.
Qed.

(** *** [parse] *)

Lemma parse_loop_nonsep c rest st :
  is_sep c = false ->
  parse_loop 0 (c :: rest) st = parse_loop 0 rest (parse_char (Z.of_nat (List.length rest)) c st).
Proof.
  intros Hc. cbn [parse_loop]. rewrite Hc.
  destruct (Z.ltb_spec (Z.of_nat (List.length rest)) 0); [lia|reflexivity].
Qed.

Lemma parse_char_first i c sp m pds :
  c <> CHAR_DOT ->
  parse_char i c (mkParseScan (-1) sp (-1) m pds) = mkParseScan (-1) sp (i + 1) false pds.
Proof.
  intros Hc. unfold parse_char. cbn. apply N.eqb_neq in Hc. now rewrite Hc.
Qed.

Lemma parse_char_ext i c sp e m pds :
  c <> CHAR_DOT -> e <> -1 ->
  parse_char i c (mkParseScan (-1) sp e m pds) = mkParseScan (-1) sp e m pds.
Proof.
  intros Hc He. unfold parse_char. cbn [end_].
  apply Z.eqb_neq in He. rewrite He. cbn. apply N.eqb_neq in Hc. now rewrite Hc.
Qed.

Lemma parse_char_dot i sp e m pds :
  e <> -1 ->
  parse_char i CHAR_DOT (mkParseScan (-1) sp e m pds) = mkParseScan i sp e m pds.
Proof.
  intros He. unfold parse_char. cbn [end_].
  apply Z.eqb_neq in He. rewrite He. reflexivity.
Qed.

Lemma parse_char_stem i c sd sp e m pds :
  sd <> -1 -> e <> -1 ->
  parse_char i c (mkParseScan sd sp e m pds)
  = mkParseScan sd sp e m (if (c =? CHAR_DOT)%N then 1 else -1).
Proof.
  intros Hsd He. unfold parse_char. cbn [end_].
  apply Z.eqb_neq in He. rewrite He. cbn [startDot startPart end_ matchedSlash preDotState].
  apply Z.eqb_neq in Hsd. rewrite Hsd. cbn [negb].
  destruct (c =? CHAR_DOT)%N; [|reflexivity].
  destruct (Z.eqb_spec pds 1) as [->|]; reflexivity.
Qed.

(** Left of the last dot of a component, the scan only keeps track of what
    the left-most code unit seen so far is. *)
Lemma parse_loop_stem l sd sp e pds :
  forallb (fun c => negb (is_sep c)) l = true -> sd <> -1 -> e <> -1 ->
  parse_loop 0 l (mkParseScan sd sp e false pds)
  = mkParseScan sd sp e false
      match rev l with
      | [] => pds
      | c :: _ => if (c =? CHAR_DOT)%N then 1 else -1
      end.
Proof.
  intros Hl Hsd He. revert pds. induction l as [|x l IH]; intros pds; [reflexivity|].
  simpl in Hl. apply andb_prop in Hl as [Hx Hl]. apply negb_true_iff in Hx.
  rewrite parse_loop_nonsep, parse_char_stem, (IH Hl) by assumption.
  simpl. destruct (rev l); reflexivity.
Qed.

(** The name of a plain file name that ends in [.tar] and does not begin
    with a dot is what stands before [.tar]. *)
Lemma parse_name_tar c stem :
  c <> CHAR_DOT -> plain (c :: stem) ->
  name (parse ((c :: stem) ++ js ".tar")) = c :: stem.
Proof.
  intros Hdot [_ Hplain]. pose proof Hplain as Hall.
  simpl in Hplain. apply andb_prop in Hplain as [Hc _]. apply negb_true_iff in Hc.
  unfold parse. cbn [app]. rewrite Hc.
  change (c :: stem ++ js ".tar") with ((c :: stem) ++ js ".tar").
  rewrite rev_app_distr.
  change (rev (js ".tar")) with [114; 97; 116; 46]%N. cbn [app].
  set (r := rev (c :: stem)).
  rewrite !parse_loop_nonsep by reflexivity.
  rewrite parse_char_first by discriminate.
  rewrite !parse_char_ext by (discriminate || lia).
  change 46%N with CHAR_DOT. rewrite parse_char_dot by lia.
  rewrite parse_loop_stem by (try lia; unfold r; now rewrite forallb_rev).
  unfold r. rewrite rev_involutive.
  apply N.eqb_neq in Hdot. rewrite Hdot.
  cbn [end_ startPart startDot preDotState].
  repeat match goal with
         | |- context [Z.eqb ?a (-1)] => destruct (Z.eqb_spec a (-1)); [lia|]
         end.
  cbn [Z.eqb Z.ltb Z.compare andb orb name].
  rewrite length_rev. apply (slice_prefix (c :: stem) (js ".tar")).
Qed.

End PathFacts.

(** ** Numbers as text *)

Lemma js_inj a b : js a = js b -> a = b.
Proof.
  unfold js. intros H.
  rewrite <- (string_of_list_ascii_of_string a), <- (string_of_list_ascii_of_string b).
  f_equal. revert H. generalize (list_ascii_of_string a) (list_ascii_of_string b).
  induction l as [|x l IH]; intros [|y l']; simpl; try discriminate; auto.
  intros [= Hxy Hl]. f_equal; [|now apply IH].
  rewrite <- (ascii_N_embedding x), <- (ascii_N_embedding y). now rewrite Hxy.
Qed.

Lemma number_to_string_inj a b : number_to_string a = number_to_string b -> a = b.
Proof.
  unfold number_to_string. intros H. apply js_inj in H.
  apply DecimalZ.to_int_inj.
  assert (Hnil : forall z, Z.to_int z <> Decimal.Pos Decimal.Nil /\
                           Z.to_int z <> Decimal.Neg Decimal.Nil).
  { intros [|q|q]; simpl; split; try discriminate;
      intros [= E]; now apply DecimalPos.Unsigned.to_uint_nonnil in E. }
  apply (f_equal NilZero.int_of_string) in H.
  rewrite !NilZero.isi in H by apply Hnil. now injection H.
Qed.

Lemma uint_digits d :
  forallb (in_range 48 57) (js (NilEmpty.string_of_uint d)) = true.
Proof. induction d; simpl; auto. Qed.

Lemma string_of_uint_digits d :
  forallb (in_range 48 57) (js (NilZero.string_of_uint d)) = true /\
  js (NilZero.string_of_uint d) <> [].
Proof.
  destruct d; try (split; [apply (uint_digits (_ d))|discriminate]).
  split; [reflexivity|discriminate].
Qed.

Lemma number_to_string_digits n :
  (0 <= n)%Z ->
  forallb (in_range 48 57) (number_to_string n) = true /\ number_to_string n <> [].
Proof.
  intros Hn. unfold number_to_string.
  destruct n as [|q|q]; [| |lia]; apply string_of_uint_digits.
Qed.

Lemma digit_name_char c : in_range 48 57 c = true -> name_char c = true.
Proof. class_cases. Qed.

Lemma number_to_string_name_chars n : forallb name_char (number_to_string n) = true.
Proof.
  unfold number_to_string. destruct n as [|q|q]; simpl Z.to_int.
  - reflexivity.
  - eapply forallb_impl; [apply digit_name_char|apply string_of_uint_digits].
  - change (forallb name_char (CHAR_HYPHEN :: js (NilZero.string_of_uint (Pos.to_uint q))) = true).
    simpl. eapply forallb_impl; [apply digit_name_char|apply string_of_uint_digits].
Qed.

(** ** Pairs of code units across a concatenation *)

Lemma includes_app_false a b x y :
  includes [a; b] x = false -> includes [a; b] y = false ->
  ends_with a x = false \/ starts_with b y = false ->
  includes [a; b] (x ++ y) = false.
Proof.
  intros Hx Hy Hedge. induction x as [|c x IH]; [exact Hy|].
  rewrite includes_cons in Hx. apply orb_false_elim in Hx as [Hp Hx].
  change ((c :: x) ++ y) with (c :: (x ++ y)). rewrite includes_cons.
  apply orb_false_intro.
  - destruct (is_prefix [a; b] (c :: x ++ y)) eqn:E; [|reflexivity].
    apply is_prefix_pair in E as [-> Hhd]. destruct x as [|z x].
    + simpl in Hhd. apply starts_with_hd in Hhd.
      destruct Hedge as [He|Hs]; [|congruence].
      unfold ends_with in He. simpl in He. now rewrite N.eqb_refl in He.
    + assert (is_prefix [c; b] (c :: z :: x) = true) by (apply is_prefix_pair; auto).
      congruence.
  - destruct x as [|z x]; [exact Hy|]. apply IH; [exact Hx|].
    destruct Hedge as [He|Hs]; [left|now right].
    now rewrite <- (ends_with_app a [c]) by discriminate.
Qed.

Lemma includes_absent a b s :
  forallb (fun c => negb (c =? a)%N) s = true -> includes [a; b] s = false.
Proof.
  induction s as [|c s IH]; [reflexivity|]. simpl forallb. intros H.
  apply andb_prop in H as [Hc Hs]. rewrite includes_cons, (IH Hs), orb_false_r.
  destruct (is_prefix [a; b] (c :: s)) eqn:E; [|reflexivity].
  apply is_prefix_pair in E as [-> _]. now rewrite N.eqb_refl in Hc.
Qed.

(** ** Archive and resource names *)

Lemma digits_without c s :
  in_range 48 57 c = false ->
  forallb (in_range 48 57) s = true -> forallb (fun x => negb (x =? c)%N) s = true.
Proof.
  intros Hc. apply forallb_impl. intros x Hx.
  destruct (N.eqb_spec x c) as [->|]; [congruence|reflexivity].
Qed.

(** The name [archive-<sanitized>-<millis>] is a valid resource name when
    the sanitized part is not empty and the clock is not before the epoch. *)
Lemma archive_name_clean san now :
  clean san -> san <> [] -> (0 <= now)%Z ->
  clean (js "archive-" ++ san ++ js "-" ++ number_to_string now).
Proof.
  intros (Hchars & Hedge & Hhy & Hdot) Hne Hnow.
  destruct (number_to_string_digits Hnow) as [Hdigits Hnum].
  set (num := number_to_string now) in *.
  assert (Hnonalnum : forall c, dot_or_hyphen c = true -> starts_with c num = false).
  { intros c Hc. destruct num as [|x num']; [reflexivity|]. simpl in *.
    apply andb_prop in Hdigits as [Hx _].
    destruct (N.eqb_spec x c) as [->|]; [|reflexivity]. revert Hx Hc. class_cases. }
  assert (Hrun : forall c, dot_or_hyphen c = true -> includes [c; c] san = false ->
            includes [c; c] (js "archive-" ++ san ++ js "-" ++ num) = false).
  { intros c Hc Hsan. apply includes_app_false.
    - revert Hc. unfold dot_or_hyphen.
      destruct (N.eqb_spec c CHAR_DOT) as [->|];
        [reflexivity|destruct (N.eqb_spec c CHAR_HYPHEN) as [->|]; [reflexivity|discriminate]].
    - apply includes_app_false; [exact Hsan| |].
      + apply includes_app_false.
        * simpl. now rewrite !andb_false_r.
        * apply includes_absent, digits_without; [|exact Hdigits]. revert Hc. class_cases.
        * right. now apply Hnonalnum.
      + left. eapply edge_free_ends_with; [|exact Hc].
        apply edge_free_alnum_dot_or_hyphen, Hedge.
    - right. destruct san as [|x san']; [contradiction|].
      change (starts_with c (x :: san') = false).
      eapply edge_free_starts_with; [|exact Hc].
      apply edge_free_alnum_dot_or_hyphen, Hedge. }
  repeat split.
  - rewrite !forallb_app, Hchars. simpl.
    now rewrite (forallb_impl _ _ _ digit_name_char Hdigits).
  - intros c r [= <- _]. reflexivity.
  - intros r c H. destruct (exists_last Hnum) as (r' & c' & Hlast).
    rewrite Hlast, !app_assoc in H. apply app_inj_tail in H as [_ <-].
    rewrite Hlast, forallb_app in Hdigits. simpl in Hdigits.
    apply andb_prop in Hdigits as [_ Hc]. rewrite andb_true_r in Hc.
    unfold not_alnum, lower_alnum. now rewrite Hc, orb_true_r.
  - now apply Hrun.
  - now apply Hrun.
Qed.

Lemma archive_filename_name_chars script now :
  forallb name_char (archive_filename script now) = true.
Proof.
  unfold archive_filename. rewrite !forallb_app.
  destruct (sanitizeText_clean (Path.name (Path.parse script))) as [-> _].
  now rewrite number_to_string_name_chars.
Qed.

Lemma archive_filename_first script now :
  exists stem,
    archive_filename script now = (97%N :: stem) ++ js ".tar" /\
    97%N :: stem = js "archive-" ++ sanitizeText (Path.name (Path.parse script))
                   ++ js "-" ++ number_to_string now.
Proof.
  unfold archive_filename.
  exists (js "rchive-" ++ sanitizeText (Path.name (Path.parse script))
          ++ js "-" ++ number_to_string now).
  split; [|reflexivity].
  change (js "archive-") with (97%N :: js "rchive-"). cbn [app]. f_equal.
  now rewrite !app_assoc.
Qed.

Lemma archive_filename_plain script now :
  plain (archive_filename script now) /\
  archive_filename script now <> [CHAR_DOT] /\
  archive_filename script now <> [CHAR_DOT; CHAR_DOT].
Proof.
  pose proof (archive_filename_name_chars script now) as Hchars.
  destruct (archive_filename_first script now) as (stem & E & _).
  rewrite E in *. repeat split; try discriminate.
  eapply forallb_impl; [|exact Hchars]. intros c Hc.
  now rewrite (name_char_not_sep _ Hc).
Qed.

Lemma archive_filename_basename d script now :
  Path.basename (Path.join [d; archive_filename script now]) = archive_filename script now.
Proof.
  destruct (archive_filename_plain script now) as (Hplain & H1 & H2).
  now apply basename_join.
Qed.

Lemma archive_filename_name script now :
  Path.name (Path.parse (archive_filename script now))
  = js "archive-" ++ sanitizeText (Path.name (Path.parse script))
    ++ js "-" ++ number_to_string now.
Proof.
  destruct (archive_filename_plain script now) as ((_ & Hplain) & _).
  destruct (archive_filename_first script now) as (stem & E & <-).
  rewrite E in *. apply parse_name_tar; [discriminate|].
  split; [discriminate|]. rewrite forallb_app in Hplain.
  now apply andb_prop in Hplain as [? _].
Qed.

Lemma archive_filename_inj script a b :
  archive_filename script a = archive_filename script b -> a = b.
Proof.
  unfold archive_filename. intros H.
  do 3 apply app_inv_head in H. apply app_inv_tail in H.
  now apply number_to_string_inj.
Qed.

(** ** Runs of the program *)

Section Monad.

Context {A B : Type}.

Lemma bind_returned (m : M A) (k : A -> M B) s b s' :
  bind m k s = (Returned b, s') ->
  exists a s1, m s = (Returned a, s1) /\ k a s1 = (Returned b, s').
Proof.
  unfold bind. destruct (m s) as [[a|e] s1]; [eauto|discriminate].
Qed.

Lemma try_catch_returned (m : M A) (h : Thrown -> M A) s a s' :
  try_catch m h s = (Returned a, s') ->
  m s = (Returned a, s') \/ exists e s1, m s = (Threw e, s1) /\ h e s1 = (Returned a, s').
Proof.
  unfold try_catch. destruct (m s) as [[a0|e] s1]; [auto|]. intros H. right. eauto.
Qed.

End Monad.

Section Runs.

Variable env : Env.

Lemma execAsync_returned command s out s1 :
  execAsync env command s = (Returned out, s1) ->
  exec env command (world s) = (ExecOk (fst out) (snd out), world s1) /\
  trace s1 = trace s ++ [EvExec command].
Proof.
  unfold execAsync. destruct (exec env command (world s)) as [[stdout stderr|e] w];
    [|discriminate].
  intros [= <- <-]. auto.
Qed.

Lemma console_returned text s u s1 :
  console text s = (Returned u, s1) -> world s1 = world s.
Proof. unfold console, emit. now intros [= _ <-]. Qed.

Lemma existsSync_returned path s found s1 :
  existsSync path s = (Returned found, s1) ->
  s1 = s /\ (found = true <-> files (world s) path <> None).
Proof.
  unfold existsSync. intros [= <- <-]. split; [reflexivity|].
  destruct (files (world s) path); split; congruence.
Qed.

(** What a call of [archiveTest] that returns has done. *)
Lemma archiveTest_returned script outputDirectory s r s' :
  archiveTest env script outputDirectory s = (Returned r, s') ->
  let archiveOutput :=
    Path.join [directory_or_cwd outputDirectory;
               archive_filename script (clock_reading env s)] in
  r = mkArchiveResult archiveOutput (Path.basename archiveOutput)
                      script (Path.basename script) /\
  files (world s') archiveOutput <> None /\
  files (world s) script <> None.
Proof.
  unfold archiveTest, clock_reading. intros H.
  apply bind_returned in H as (found & s1 & Hscript & H).
  apply existsSync_returned in Hscript as [-> Hscript].
  destruct found; [|discriminate]. cbn [negb] in H.
  apply bind_returned in H as (u & s1 & Hdir & H).
  assert (s1 = s) as ->.
  { destruct outputDirectory as [[|c d]|]; try (injection Hdir as _ <-; reflexivity).
    apply bind_returned in Hdir as (found & s2 & Hd & Hdir).
    apply existsSync_returned in Hd as [-> _].
    destruct found; [|discriminate]. now injection Hdir as _ <-. }
  clear Hdir. apply bind_returned in H as (u1 & s1 & Hprobe & H).
  apply try_catch_returned in Hprobe as [Hprobe|(e & s2 & _ & Hprobe)]; [|discriminate].
  apply bind_returned in Hprobe as (out1 & s2 & Hprobe & Hret).
  injection Hret as _ ->. apply execAsync_returned in Hprobe as [Hprobe Htrace].
  rewrite Hprobe. cbn [snd].
  apply try_catch_returned in H as [H|(e & s2 & _ & H)]; [|discriminate].
  apply bind_returned in H as (now & s2 & Hnow & H).
  injection Hnow as <- <-.
  apply bind_returned in H as (u2 & s2 & Hlog & H). apply console_returned in Hlog.
  apply bind_returned in H as ([stdout stderr] & s3 & Harchive & H).
  apply execAsync_returned in Harchive as [_ _].
  apply bind_returned in H as (u3 & s4 & Hlog1 & H). apply console_returned in Hlog1.
  apply bind_returned in H as (u4 & s5 & Hlog2 & H). apply console_returned in Hlog2.
  apply bind_returned in H as (found & s6 & Hout & H).
  apply existsSync_returned in Hout as [-> Hout].
  destruct found; [|discriminate]. cbn [negb] in H.
  apply bind_returned in H as (u5 & s6 & Hlog3 & H). apply console_returned in Hlog3.
  injection H as <- <-. rewrite Hlog3.
  repeat split; [now apply Hout|now apply Hscript].
Qed.

(** What a call of [createConfigMap] that returns has done. *)
Lemma createConfigMap_returned r namespace s cm s' :
  createConfigMap env r namespace s = (Returned cm, s') ->
  let configMapName := Path.name (Path.parse (archiveFilename r)) in
  exists content,
    files (world s) (archivePath r) = Some (File content) /\
    (Z.of_nat (List.length content) <= 1048576)%Z /\
    cm = mkConfigMapResult namespace configMapName (archivePath r) (archiveFilename r) /\
    trace s' =
      trace s ++
      [EvCreate
         (mkCreate namespace
            (mkConfigMap (js "v1") (js "ConfigMap") (mkMeta configMapName namespace)
               [(archiveFilename r, Base64.encode content)]));
       EvConsole (js "ConfigMap " ++ configMapName ++ js " created in namespace "
                  ++ namespace)].
Proof.
  unfold createConfigMap. intros H.
  apply bind_returned in H as (found & s1 & Hfound & H).
  apply existsSync_returned in Hfound as [-> _].
  destruct found; [|discriminate]. cbn [negb] in H.
  apply bind_returned in H as (size & s1 & Hstat & H).
  unfold fs_stat in Hstat.
  destruct (files (world s) (archivePath r)) as [node|] eqn:Hnode; [|discriminate].
  injection Hstat as <- <-.
  destruct (Z.gtb_spec (node_size node) (1024 * 1024)) as [|Hsize]; [discriminate|].
  apply bind_returned in H as (u & s1 & Hclient & H).
  assert (s1 = s) as ->.
  { unfold k8sApi in Hclient. destruct (makeApiClient env (world s)); [discriminate|].
    now injection Hclient as _ <-. }
  apply bind_returned in H as (fileContent & s1 & Hread & H).
  unfold fs_readFile_base64 in Hread. rewrite Hnode in Hread.
  destruct node as [content|]; [|discriminate]. injection Hread as <- <-.
  apply bind_returned in H as (u1 & s1 & Hcreate & H).
  unfold api_create in Hcreate.
  destruct (createNamespacedConfigMap env _ (world s)) as [[e|] w]; [discriminate|].
  injection Hcreate as _ <-.
  apply bind_returned in H as (u2 & s2 & Hlog & H).
  unfold console, emit in Hlog. injection Hlog as _ <-.
  injection H as <- <-. cbn [trace]. exists content.
  rewrite <- app_assoc. simpl in Hsize. auto.
Qed.

End Runs.

(** * The three operations *)

Lemma creates_of_app a b : creates_of (a ++ b) = creates_of a ++ creates_of b.
Proof. apply flat_map_app. Qed.

Lemma deletes_of_app a b : deletes_of (a ++ b) = deletes_of a ++ deletes_of b.
Proof. apply flat_map_app. Qed.

Lemma strip_leading_all cls s : forallb cls s = true -> strip_leading cls s = [].
Proof.
  induction s as [|c s IH]; simpl; [reflexivity|]. intros H.
  apply andb_prop in H as [-> Hs]. now apply IH.
Qed.

Lemma lower_unit_not_alnum c :
  alphanumeric c = false -> forallb not_alnum (lower_unit c) = true.
Proof.
  unfold alphanumeric, lower_unit. class_cases.
Qed.

Lemma sanitizeText_no_alphanumeric s :
  forallb (fun c => negb (alphanumeric c)) s = true -> sanitizeText s = [].
Proof.
  intros H. unfold sanitizeText.
  assert (Hlower : forallb not_alnum (toLowerCase s) = true).
  { unfold toLowerCase. induction s as [|c s IH]; [reflexivity|].
    simpl in *. apply andb_prop in H as [Hc Hs]. apply negb_true_iff in Hc.
    now rewrite forallb_app, (lower_unit_not_alnum _ Hc), IH. }
  assert (Hreplace : forall cls l,
             forallb not_alnum l = true ->
             forallb not_alnum (replace_each cls CHAR_HYPHEN l) = true).
  { intros cls l. unfold replace_each. induction l as [|c l IH]; [reflexivity|].
    simpl. intros Hl. apply andb_prop in Hl as [Hc Hl].
    rewrite (IH Hl), andb_true_r. now destruct (cls c). }
  unfold strip_edges at 2.
  now rewrite strip_leading_all by (do 2 apply Hreplace; exact Hlower).
Qed.

(** C4: a call of [archiveTest] that returns gives back the path made of
    the output directory, or [.] when none was given, joined with
    [archive-<sanitized script name>-<Date.now()>.tar]; the file name is the
    base name of that path, which is that very
    [archive-<sanitized script name>-<Date.now()>.tar]; and the path exists
    in the file system of the state the call returns in. *)
Theorem archiveTest_result env script outputDirectory s r s' :
  archiveTest env script outputDirectory s = (Returned r, s') ->
  let filename :=
    js "archive-" ++ sanitizeText (Path.name (Path.parse script))
    ++ js "-" ++ number_to_string (clock_reading env s) ++ js ".tar" in
  archivePath r = Path.join [directory_or_cwd outputDirectory; filename] /\
  archiveFilename r = Path.basename (archivePath r) /\
  archiveFilename r = filename /\
  files (world s') (archivePath r) <> None.
Proof.
  intros H. apply archiveTest_returned in H as (-> & Hexists & _).
  cbn [archivePath archiveFilename]. repeat split; auto.
  apply archive_filename_basename.
Qed.

Lemma archiveTest_result_witness :
  exists r s',
    archiveTest Sample.obliging (js "sample.js") (Some (js "out"))
                (Sample.start Sample.full_world) = (Returned r, s') /\
    archivePath r = js "out/archive-sample-1762000000000.tar" /\
    archiveFilename r = Path.basename (archivePath r) /\
    archiveFilename r = js "archive-sample-1762000000000.tar" /\
    files (world s') (archivePath r) <> None.
Proof.
  do 2 eexists.
  match goal with |- ?A /\ _ => assert (H : A) by (vm_compute; reflexivity) end.
  split; [exact H|]. exact (archiveTest_result _ _ _ _ H).
Defined.

(** C5, as the code has it: the script is looked for first, then the output
    directory when one is given and is not the empty string, then [k6] is
    probed.  The first two failures leave the state as it was (no subprocess,
    no event at all); the third has run the version probe and nothing else.
    The three failures differ. *)
Theorem archiveTest_preconditions env script outputDirectory s :
  (files (world s) script = None ->
   archiveTest env script outputDirectory s = (Threw (ScriptNotFound script), s)) /\
  (forall c d,
      files (world s) script <> None ->
      outputDirectory = Some (c :: d) ->
      files (world s) (c :: d) = None ->
      archiveTest env script outputDirectory s
      = (Threw (OutputDirectoryNotFound (c :: d)), s)) /\
  (forall error w,
      files (world s) script <> None ->
      match outputDirectory with
      | Some (c :: d) => files (world s) (c :: d) <> None
      | _ => True
      end ->
      exec env (js "k6 version") (world s) = (ExecError error, w) ->
      archiveTest env script outputDirectory s
      = (Threw ToolNotInstalled, mkState w (trace s ++ [EvExec (js "k6 version")]))) /\
  (forall a b,
      ScriptNotFound a <> OutputDirectoryNotFound b /\
      ScriptNotFound a <> ToolNotInstalled /\
      OutputDirectoryNotFound b <> ToolNotInstalled).
Proof.
  repeat split; try discriminate.
  - intros H. unfold archiveTest, bind, existsSync. now rewrite H.
  - intros c d Hscript -> Hdir. unfold archiveTest, bind, existsSync.
    destruct (files (world s) script); [|contradiction]. cbn [negb]. now rewrite Hdir.
  - intros error w Hscript Hdir Hprobe.
    unfold archiveTest, bind, try_catch, existsSync, execAsync, ret, throw.
    destruct (files (world s) script); [|contradiction]. cbn [negb].
    destruct outputDirectory as [[|c d]|];
      try destruct (files (world s) (c :: d)); try contradiction;
      cbn [negb]; now rewrite Hprobe.
Qed.

Lemma archiveTest_preconditions_witness :
  archiveTest Sample.failing (js "missing.js") (Some (js "out"))
              (Sample.start Sample.bare_world)
  = (Threw (ScriptNotFound (js "missing.js")), Sample.start Sample.bare_world) /\
  archiveTest Sample.failing (js "test.js") (Some (js "out"))
              (Sample.start Sample.bare_world)
  = (Threw (OutputDirectoryNotFound (js "out")), Sample.start Sample.bare_world) /\
  archiveTest Sample.failing (js "test.js") None (Sample.start Sample.bare_world)
  = (Threw ToolNotInstalled,
     mkState Sample.bare_world ([] ++ [EvExec (js "k6 version")])).
Proof.
  split; [|split].
  - apply (proj1 (archiveTest_preconditions Sample.failing (js "missing.js")
                    (Some (js "out")) (Sample.start Sample.bare_world))).
    reflexivity.
  - apply (proj1 (proj2 (archiveTest_preconditions Sample.failing (js "test.js")
                           (Some (js "out")) (Sample.start Sample.bare_world)))
             111%N (js "ut")).
    + discriminate.
    + reflexivity.
    + reflexivity.
  - apply (proj1 (proj2 (proj2 (archiveTest_preconditions Sample.failing (js "test.js")
                                  None (Sample.start Sample.bare_world))))
             (Error (js "k6: command not found")) Sample.bare_world).
    + discriminate.
    + exact I.
    + reflexivity.
Defined.

(** C5 as stated fails for the empty string: given as output directory, it
    does not exist, and yet the call goes on to probe [k6]. *)
Lemma empty_outputDirectory_not_checked :
  files Sample.bare_world (js "") = None /\
  archiveTest Sample.failing (js "test.js") (Some (js "")) (Sample.start Sample.bare_world)
  = (Threw ToolNotInstalled, mkState Sample.bare_world [EvExec (js "k6 version")]) /\
  ToolNotInstalled <> OutputDirectoryNotFound (js "").
Proof. repeat split. discriminate. Qed.

(** C6: [createConfigMap] fails with [ArchiveNotFound] when nothing exists
    at the archive path, and otherwise with [ArchiveTooLarge] when the size
    is above 1048576 bytes; in both cases the state is left as it was, so no
    create request has been made.  An archive of at most 1048576 bytes gets
    past the size check: its create request is made. *)
Theorem createConfigMap_preconditions env r namespace s :
  (files (world s) (archivePath r) = None ->
   createConfigMap env r namespace s = (Threw (ArchiveNotFound (archivePath r)), s)) /\
  (forall node,
      files (world s) (archivePath r) = Some node ->
      (1048576 < node_size node)%Z ->
      createConfigMap env r namespace s = (Threw (ArchiveTooLarge (node_size node)), s)) /\
  (forall content,
      files (world s) (archivePath r) = Some (File content) ->
      (Z.of_nat (List.length content) <= 1048576)%Z ->
      makeApiClient env (world s) = None ->
      creates_of (trace (snd (createConfigMap env r namespace s)))
      = creates_of (trace s) ++
        [mkCreate namespace
           (mkConfigMap (js "v1") (js "ConfigMap")
              (mkMeta (Path.name (Path.parse (archiveFilename r))) namespace)
              [(archiveFilename r, Base64.encode content)])]).
Proof.
  repeat split.
  - intros H. unfold createConfigMap, bind, existsSync. now rewrite H.
  - intros node Hnode Hsize. unfold createConfigMap, bind, existsSync, fs_stat.
    repeat (rewrite ?Hnode; cbn [negb]).
    destruct (Z.gtb_spec (node_size node) (1024 * 1024)) as [|Hle]; [reflexivity|].
    simpl in Hle. lia.
  - intros content Hnode Hsize Hclient.
    unfold createConfigMap, bind, existsSync, fs_stat, k8sApi, fs_readFile_base64,
      api_create, console, emit, ret.
    repeat (rewrite ?Hnode; cbn [negb node_size]).
    destruct (Z.gtb_spec (Z.of_nat (List.length content)) (1024 * 1024)) as [Hgt|_];
      [simpl in Hgt; lia|].
    repeat (rewrite ?Hnode, ?Hclient; cbn [negb node_size]).
    destruct (createNamespacedConfigMap env _ (world s)) as [[error|] w];
      cbn [snd trace world]; rewrite ?creates_of_app; cbn [creates_of flat_map app];
      now rewrite ?app_nil_r.
Qed.

Lemma createConfigMap_preconditions_witness :
  createConfigMap Sample.obliging Sample.handmade (js "default")
                  (Sample.start Sample.bare_world)
  = (Threw (ArchiveNotFound (js "My_Archive.tar")), Sample.start Sample.bare_world) /\
  createConfigMap Sample.obliging Sample.handmade (js "default")
                  (Sample.start Sample.big_world)
  = (Threw (ArchiveTooLarge
              (node_size (File (repeat Byte.x00 (N.to_nat 1048577))))),
     Sample.start Sample.big_world) /\
  creates_of (trace (snd (createConfigMap Sample.obliging Sample.handmade (js "default")
                                          (Sample.start Sample.limit_world))))
  = [] ++ [mkCreate (js "default")
             (mkConfigMap (js "v1") (js "ConfigMap")
                (mkMeta (Path.name (Path.parse (js "My_Archive.tar"))) (js "default"))
                [(js "My_Archive.tar",
                  Base64.encode (repeat Byte.x00 (N.to_nat 1048576)))])].
Proof.
  split; [|split].
  - apply (proj1 (createConfigMap_preconditions Sample.obliging Sample.handmade
                    (js "default") (Sample.start Sample.bare_world))).
    reflexivity.
  - apply (proj1 (proj2 (createConfigMap_preconditions Sample.obliging Sample.handmade
                           (js "default") (Sample.start Sample.big_world)))
             (File (repeat Byte.x00 (N.to_nat 1048577)))).
    + reflexivity.
    + cbn [node_size]. rewrite repeat_length, N_nat_Z. reflexivity.
  - apply (proj2 (proj2 (createConfigMap_preconditions Sample.obliging Sample.handmade
                           (js "default") (Sample.start Sample.limit_world)))
             (repeat Byte.x00 (N.to_nat 1048576))).
    + reflexivity.
    + rewrite repeat_length, N_nat_Z. reflexivity.
    + reflexivity.
Defined.

(** C7: a call of [createConfigMap] that returns has made exactly one create
    request, in the namespace given, for the object [{apiVersion: "v1",
    kind: "ConfigMap", metadata: {name: configMapName, namespace},
    binaryData}], where [binaryData] has the single key [archiveFilename]
    and its value is the base64 text of all the bytes of the archive. *)
Theorem createConfigMap_request env r namespace s cm s' :
  createConfigMap env r namespace s = (Returned cm, s') ->
  exists content,
    files (world s) (archivePath r) = Some (File content) /\
    creates_of (trace s') =
      creates_of (trace s) ++
      [mkCreate namespace
         (mkConfigMap (js "v1") (js "ConfigMap")
            (mkMeta (configMapName cm) namespace)
            [(archiveFilename r, Base64.encode content)])].
Proof.
  intros H. apply createConfigMap_returned in H as (content & Hfile & _ & -> & ->).
  exists content. split; [exact Hfile|].
  rewrite creates_of_app. reflexivity.
Qed.

Lemma createConfigMap_request_witness :
  exists cm s' content,
    createConfigMap Sample.obliging Sample.sample_archive (js "load-tests")
                    (Sample.start Sample.full_world) = (Returned cm, s') /\
    files Sample.full_world (js "out/archive-sample-1762000000000.tar")
    = Some (File content) /\
    creates_of (trace s') =
      [] ++
      [mkCreate (js "load-tests")
         (mkConfigMap (js "v1") (js "ConfigMap")
            (mkMeta (configMapName cm) (js "load-tests"))
            [(js "archive-sample-1762000000000.tar", Base64.encode content)])].
Proof.
  eexists. eexists.
  assert (H : createConfigMap Sample.obliging Sample.sample_archive (js "load-tests")
                (Sample.start Sample.full_world) = (Returned _, _))
    by (vm_compute; reflexivity).
  destruct (createConfigMap_request _ _ _ _ H) as (content & Hfile & Htrace).
  exists content. split; [exact H|]. split; [exact Hfile|exact Htrace].
Defined.



(** C1, as the code has it: the resource name is the archive file name
    without its extension, taken as it is and not sanitized.  For a file name
    that [archiveTest] makes, [archive-<sanitized>-<millis>.tar] with a
    sanitized script name that is not empty and a clock not before the epoch,
    that is [archive-<sanitized>-<millis>], a valid resource name. *)
Theorem createConfigMap_name env r namespace s cm s' :
  createConfigMap env r namespace s = (Returned cm, s') ->
  configMapName cm = Path.name (Path.parse (archiveFilename r)) /\
  (forall script now,
      archiveFilename r = archive_filename script now ->
      sanitizeText (Path.name (Path.parse script)) <> [] ->
      (0 <= now)%Z ->
      configMapName cm
      = js "archive-" ++ sanitizeText (Path.name (Path.parse script))
        ++ js "-" ++ number_to_string now /\
      valid_resource_name (configMapName cm) = true).
Proof.
  intros H. apply createConfigMap_returned in H as (_ & _ & _ & -> & _).
  cbn [configMapName]. split; [reflexivity|].
  intros script now -> Hne Hnow. rewrite archive_filename_name.
  split; [reflexivity|].
  apply clean_valid, archive_name_clean; auto using sanitizeText_clean.
Qed.

Lemma createConfigMap_name_witness :
  exists cm s',
    createConfigMap Sample.obliging Sample.sample_archive (js "load-tests")
                    (Sample.start Sample.full_world) = (Returned cm, s') /\
    configMapName cm
    = js "archive-" ++ sanitizeText (Path.name (Path.parse (js "sample.js")))
      ++ js "-" ++ number_to_string 1762000000000 /\
    valid_resource_name (configMapName cm) = true.
Proof.
  eexists. eexists.
  assert (H : createConfigMap Sample.obliging Sample.sample_archive (js "load-tests")
                (Sample.start Sample.full_world) = (Returned _, _))
    by (vm_compute; reflexivity).
  split; [exact H|].
  apply (proj2 (createConfigMap_name _ _ _ _ H) (js "sample.js") 1762000000000%Z).
  - vm_compute. reflexivity.
  - vm_compute. discriminate.
  - lia.
Defined.

(** C1 as stated fails: an archive file name that is not already clean
    gives a resource name that is neither sanitized nor valid. *)
Lemma handmade_name_not_sanitized :
  exists cm s',
    createConfigMap Sample.obliging Sample.handmade (js "default")
                    (Sample.start Sample.full_world) = (Returned cm, s') /\
    configMapName cm = js "My_Archive" /\
    sanitizeText (Path.name (Path.parse (archiveFilename Sample.handmade)))
    = js "my-archive" /\
    valid_resource_name (configMapName cm) = false.
Proof.
  eexists. eexists. split; [vm_compute; reflexivity|].
  repeat split.
Qed.

(** C8, as the code has it: two calls of [archiveTest] on the same script
    and output directory that return give different archive paths when
    [Date.now()] gave them different values, and the same path when it gave
    them the same value. *)
Theorem archivePath_distinct env script outputDirectory s1 r1 s1' s2 r2 s2' :
  archiveTest env script outputDirectory s1 = (Returned r1, s1') ->
  archiveTest env script outputDirectory s2 = (Returned r2, s2') ->
  (clock_reading env s1 <> clock_reading env s2 <-> archivePath r1 <> archivePath r2).
Proof.
  intros H1 H2.
  apply archiveTest_returned in H1 as (-> & _). apply archiveTest_returned in H2 as (-> & _).
  cbn [archivePath]. split; intros Hne Heq; apply Hne.
  - apply (f_equal Path.basename) in Heq.
    rewrite !archive_filename_basename in Heq.
    now apply archive_filename_inj in Heq.
  - now rewrite Heq.
Qed.

Lemma archivePath_distinct_witness :
  exists r1 s1' r2 s2',
    archiveTest Sample.obliging (js "sample.js") None (Sample.start Sample.full_world)
    = (Returned r1, s1') /\
    archiveTest Sample.obliging (js "sample.js") None (Sample.start Sample.later_world)
    = (Returned r2, s2') /\
    archivePath r1 <> archivePath r2.
Proof.
  do 4 eexists.
  match goal with |- ?A /\ _ => assert (H1 : A) by (vm_compute; reflexivity) end.
  match goal with |- _ /\ ?A /\ _ => assert (H2 : A) by (vm_compute; reflexivity) end.
  split; [exact H1|]. split; [exact H2|].
  apply (proj1 (@archivePath_distinct _ _ _ _ _ _ _ _ _ H1 H2)). vm_compute. discriminate.
Defined.

(** C8 as stated fails: when the clock reads the same millisecond in both
    calls, archiving the same script twice gives the same path twice. *)
Lemma same_millisecond_same_path :
  exists r1 r2 s',
    Sample.archive_twice Sample.obliging (js "sample.js") (Sample.start Sample.full_world)
    = (Returned (r1, r2), s') /\
    archivePath r1 = archivePath r2.
Proof.
  do 3 eexists. split; [vm_compute; reflexivity|]. reflexivity.
Qed.

(** C10: a string with no letter and no digit is sanitized to the empty
    string.  When the name of the script is sanitized to the empty string, a
    call of [archiveTest] that returns gives the file name
    [archive--<Date.now()>.tar], which has [--] in it, and the resource name
    [createConfigMap] then derives from it begins with [archive--]. *)
Theorem sanitizeText_empty_name :
  (forall text,
      forallb (fun c => negb (alphanumeric c)) text = true -> sanitizeText text = []) /\
  (forall env script outputDirectory s r s',
      sanitizeText (Path.name (Path.parse script)) = [] ->
      archiveTest env script outputDirectory s = (Returned r, s') ->
      archiveFilename r
      = js "archive--" ++ number_to_string (clock_reading env s) ++ js ".tar" /\
      includes (js "--") (archiveFilename r) = true /\
      (forall env' namespace s1 cm s1',
          createConfigMap env' r namespace s1 = (Returned cm, s1') ->
          is_prefix (js "archive--") (configMapName cm) = true)).
Proof.
  split; [exact sanitizeText_no_alphanumeric|].
  intros env script outputDirectory s r s' Hempty H.
  apply archiveTest_returned in H as (-> & _). cbn [archiveFilename].
  rewrite archive_filename_basename.
  assert (Hname : archive_filename script (clock_reading env s)
                  = js "archive--" ++ number_to_string (clock_reading env s) ++ js ".tar").
  { unfold archive_filename. rewrite Hempty. reflexivity. }
  split; [exact Hname|]. split; [rewrite Hname; reflexivity|].
  intros env' namespace s1 cm s1' Hcm.
  apply createConfigMap_returned in Hcm as (_ & _ & _ & -> & _).
  cbn [configMapName archiveFilename].
  rewrite archive_filename_name, Hempty. reflexivity.
Qed.

Lemma sanitizeText_empty_name_witness :
  sanitizeText (js "___") = [] /\
  sanitizeText (js "!!!") = [] /\
  exists r s' cm s1',
    archiveTest Sample.obliging (js "___.js") None (Sample.start Sample.full_world)
    = (Returned r, s') /\
    archiveFilename r = js "archive--" ++ number_to_string 1762000000000 ++ js ".tar" /\
    includes (js "--") (archiveFilename r) = true /\
    createConfigMap Sample.obliging r (js "default") s' = (Returned cm, s1') /\
    is_prefix (js "archive--") (configMapName cm) = true.
Proof.
  split; [|split].
  - apply (proj1 sanitizeText_empty_name). reflexivity.
  - apply (proj1 sanitizeText_empty_name). reflexivity.
  - do 4 eexists.
    match goal with |- ?A /\ _ => assert (H : A) by (vm_compute; reflexivity) end.
    match goal with
    | |- _ /\ _ /\ _ /\ ?D /\ _ => assert (Hcm : D) by (vm_compute; reflexivity)
    end.
    assert (Hempty : sanitizeText (Path.name (Path.parse (js "___.js"))) = [])
      by reflexivity.
    destruct (proj2 sanitizeText_empty_name _ _ _ _ _ _ Hempty H) as (Hname & Hrun & Hprefix).
    split; [exact H|]. split; [exact Hname|]. split; [exact Hrun|].
    split; [exact Hcm|]. exact (Hprefix _ _ _ _ _ Hcm).
Defined.

(** * More on the sanitizer *)

Section Kept.

(** What a step keeps of the code units of a class [P] it never matches. *)
Variable P : N -> bool.

Lemma replace_each_filter cls r s :
  (forall c, cls c = true -> P c = false) -> P r = false ->
  filter P (replace_each cls r s) = filter P s.
Proof.
  intros Hcls Hr. unfold replace_each. induction s as [|c s IH]; [reflexivity|].
  simpl. destruct (cls c) eqn:Hc; rewrite IH; [|reflexivity].
  now rewrite Hr, (Hcls _ Hc).
Qed.

Lemma strip_leading_filter cls s :
  (forall c, cls c = true -> P c = false) ->
  filter P (strip_leading cls s) = filter P s.
Proof.
  intros Hcls. induction s as [|c s IH]; [reflexivity|]. simpl.
  destruct (cls c) eqn:Hc; [|reflexivity]. now rewrite (Hcls _ Hc).
Qed.

Lemma forallb_filter_nil cls s :
  (forall c, cls c = true -> P c = false) -> forallb cls s = true -> filter P s = [].
Proof.
  intros Hcls. induction s as [|c s IH]; [reflexivity|]. simpl. intros H.
  apply andb_prop in H as [Hc Hs]. now rewrite (Hcls _ Hc), IH.
Qed.

Lemma strip_trailing_filter cls s :
  (forall c, cls c = true -> P c = false) ->
  filter P (strip_trailing cls s) = filter P s.
Proof.
  intros Hcls. induction s as [|c s IH]; [reflexivity|].
  cbn [strip_trailing]. destruct (forallb cls (c :: s)) eqn:Hall.
  - symmetry. now apply (forallb_filter_nil cls).
  - simpl. now rewrite IH.
Qed.

Lemma collapse_filter d s : P d = false -> filter P (collapse d s) = filter P s.
Proof.
  intros Hd. induction s as [|c s IH]; [reflexivity|]. simpl.
  destruct ((c =? d)%N && starts_with d s) eqn:Hrun; simpl; rewrite IH; [|reflexivity].
  apply andb_prop in Hrun as [Hc _]. apply N.eqb_eq in Hc. subst. now rewrite Hd.
Qed.

End Kept.

Lemma lower_unit_alphanumeric c :
  existsb lower_alnum (lower_unit c) = alphanumeric c.
Proof. unfold alphanumeric, lower_unit. class_cases. Qed.

Lemma toLowerCase_alphanumeric s :
  existsb lower_alnum (toLowerCase s) = existsb alphanumeric s.
Proof.
  unfold toLowerCase. induction s as [|c s IH]; [reflexivity|].
  simpl. now rewrite existsb_app, lower_unit_alphanumeric, IH.
Qed.

Lemma filter_nil_existsb {A} (P : A -> bool) l : filter P l = [] <-> existsb P l = false.
Proof.
  induction l as [|a l IH]; simpl; [tauto|].
  destruct (P a); simpl; [split; discriminate|exact IH].
Qed.

Lemma existsb_false_forallb {A} (P : A -> bool) l :
  existsb P l = false <-> forallb (fun a => negb (P a)) l = true.
Proof.
  induction l as [|a l IH]; simpl; [tauto|].
  destruct (P a); simpl; [split; discriminate|exact IH].
Qed.

Lemma valid_clean s : valid_resource_name s = true -> clean s.
Proof.
  unfold valid_resource_name. intros H.
  repeat (apply andb_prop in H as [H ?]).
  repeat match goal with Hn : negb _ = true |- _ => apply negb_true_iff in Hn end.
  assert (Hedge : forall c, name_char c = true -> (c =? CHAR_HYPHEN)%N = false ->
                            (c =? CHAR_DOT)%N = false -> not_alnum c = false).
  { intros c. unfold name_char, not_alnum. intros Hc Hh Hd. rewrite Hh, Hd in Hc.
    rewrite !orb_false_r in Hc. now rewrite Hc. }
  repeat split; try assumption.
  - intros c r ->. simpl in *. apply andb_prop in H as [Hc _]. now apply Hedge.
  - intros r c ->. unfold ends_with in *. rewrite rev_app_distr in *. simpl in *.
    rewrite forallb_app in H. simpl in H. apply andb_prop in H as [_ Hc].
    rewrite andb_true_r in Hc. now apply Hedge.
Qed.

(** X1: whatever the text, the sanitized text is a valid resource name:
    nothing but [a-z0-9.-], neither [-] nor [.] at either end, no [--] and no
    [..]. *)
Theorem sanitizeText_valid_name (text : jsstring) :
  valid_resource_name (sanitizeText text) = true.
Proof. apply clean_valid, sanitizeText_clean. Qed.

(** X2: the texts the sanitizer leaves as they are are exactly the valid
    resource names. *)
Theorem sanitizeText_fixed_points (text : jsstring) :
  sanitizeText text = text <-> valid_resource_name text = true.
Proof.
  split.
  - intros <-. apply clean_valid, sanitizeText_clean.
  - intros H. now apply clean_fixed, valid_clean.
Qed.

Lemma dot_or_hyphen_not_alnum c : dot_or_hyphen c = true -> lower_alnum c = false.
Proof. class_cases. Qed.

Lemma not_alnum_not_alnum c : not_alnum c = true -> lower_alnum c = false.
Proof. unfold not_alnum. apply negb_true_iff. Qed.

Lemma not_name_char_not_alnum c : not_name_char c = true -> lower_alnum c = false.
Proof.
  unfold not_name_char, name_char. intros H. apply negb_true_iff in H.
  now destruct (lower_alnum c).
Qed.

Lemma underscore_not_alnum c : is_char CHAR_UNDERSCORE c = true -> lower_alnum c = false.
Proof. class_cases. Qed.

Lemma sanitizeText_filter_alnum text :
  filter lower_alnum (sanitizeText text) = filter lower_alnum (toLowerCase text).
Proof.
  unfold sanitizeText, strip_edges.
  rewrite strip_trailing_filter, strip_leading_filter by apply dot_or_hyphen_not_alnum.
  rewrite !collapse_filter by reflexivity.
  rewrite strip_trailing_filter, strip_leading_filter by apply not_alnum_not_alnum.
  rewrite (@replace_each_filter lower_alnum not_name_char CHAR_HYPHEN _
             not_name_char_not_alnum eq_refl).
  exact (@replace_each_filter lower_alnum (is_char CHAR_UNDERSCORE) CHAR_HYPHEN _
           underscore_not_alnum eq_refl).
Qed.

(** X3: the sanitizer neither drops, adds nor reorders a letter or digit:
    the letters and digits of the sanitized text are those of the
    lower-cased text, in the same order. *)
Theorem sanitizeText_keeps_alphanumerics (text : jsstring) :
  filter lower_alnum (sanitizeText text) = filter lower_alnum (toLowerCase text).
Proof. apply sanitizeText_filter_alnum. Qed.

(** X4: the sanitized text is empty exactly when the text has no letter and
    no digit. *)
Theorem sanitizeText_empty_iff (text : jsstring) :
  sanitizeText text = [] <-> forallb (fun c => negb (alphanumeric c)) text = true.
Proof.
  split; [|apply sanitizeText_no_alphanumeric].
  intros H. apply existsb_false_forallb.
  rewrite <- toLowerCase_alphanumeric. apply filter_nil_existsb.
  now rewrite <- sanitizeText_filter_alnum, H.
Qed.

(** * More on the three operations *)

Section Outcomes.

Variable env : Env.

(** Every way a call of [archiveTest] can end. *)
Lemma archiveTest_cases script outputDirectory s :
  let probe := exec env (js "k6 version") (world s) in
  let archiveOutput :=
    Path.join [directory_or_cwd outputDirectory;
               archive_filename script (dateNow (snd probe))] in
  let archiveCommand := js "k6 archive -v -O " ++ archiveOutput ++ js " " ++ script in
  let archive := exec env archiveCommand (snd probe) in
  let ran :=
    [EvExec (js "k6 version");
     EvConsole (js "Archiving script with command: " ++ archiveCommand);
     EvExec archiveCommand] in
  let run := archiveTest env script outputDirectory s in
  run = (Threw (ScriptNotFound script), s) \/
  (exists dir, run = (Threw (OutputDirectoryNotFound dir), s)) \/
  run = (Threw ToolNotInstalled, mkState (snd probe) (trace s ++ [EvExec (js "k6 version")])) \/
  (exists m logs,
      run = (Threw (ArchiveCreationFailed m), mkState (snd archive) (trace s ++ ran ++ logs)) /\
      execs_of logs = [] /\ creates_of logs = [] /\ deletes_of logs = []) \/
  (exists r logs,
      run = (Returned r, mkState (snd archive) (trace s ++ ran ++ logs)) /\
      execs_of logs = [] /\ creates_of logs = [] /\ deletes_of logs = []).
Proof.
  cbv zeta.
  destruct (files (world s) script) as [node|] eqn:Hs.
  2:{ left. unfold archiveTest, bind, existsSync. now rewrite Hs. }
  right.
  assert (Hdir :
    (exists dir, archiveTest env script outputDirectory s
                 = (Threw (OutputDirectoryNotFound dir), s)) \/
    forall tl : M ArchiveResult,
      bind match outputDirectory with
           | Some (c :: d) =>
               bind (existsSync (c :: d))
                    (fun found => if negb found
                                  then throw (OutputDirectoryNotFound (c :: d))
                                  else ret tt)
           | _ => ret tt
           end (fun _ => tl) s = tl s).
  { destruct outputDirectory as [[|c d]|]; try (right; reflexivity).
    destruct (files (world s) (c :: d)) eqn:Hd.
    - right. intros tl. unfold bind, existsSync. now rewrite Hd.
    - left. exists (c :: d). unfold archiveTest, bind, existsSync. rewrite Hs. cbn [negb].
      now rewrite Hd. }
  destruct Hdir as [Hdir|Hdir]; [now left|]. right.
  assert (Hrun : forall tl : M ArchiveResult,
    archiveTest env script outputDirectory s
    = bind (try_catch (bind (execAsync env (js "k6 version")) (fun _ => ret tt))
                      (fun _ => throw ToolNotInstalled))
           (fun _ =>
              try_catch
                (now <- Date_now ;;
                 let archiveOutput :=
                   Path.join [directory_or_cwd outputDirectory;
                              archive_filename script now] in
                 let archiveCommand :=
                   js "k6 archive -v -O " +++ archiveOutput +++ js " " +++ script in
                 console (js "Archiving script with command: " +++ archiveCommand) ;;
                 out <- execAsync env archiveCommand ;;
                 let '(stdout, stderr) := out in
                 console (js "Standard Output: " +++ stdout) ;;
                 console (js "Standard Error: " +++ stderr) ;;
                 found <- existsSync archiveOutput ;;
                 if negb found
                 then throw (Error (js "Failed to create archive: " +++ stderr))
                 else
                   console (js "Archive created successfully at: " +++ archiveOutput) ;;
                   ret (mkArchiveResult archiveOutput (Path.basename archiveOutput)
                                        script (Path.basename script)))
                (fun error => throw (ArchiveCreationFailed (message_or_unknown error)))) s).
  { intros _. unfold archiveTest. unfold bind at 1. unfold existsSync at 1.
    rewrite Hs. cbn [negb]. apply Hdir. }
  rewrite (Hrun (ret (mkArchiveResult [] [] [] []))). clear Hrun Hdir.
  unfold bind, try_catch, existsSync, execAsync, Date_now, console, emit, ret, throw.
  destruct (exec env (js "k6 version") (world s)) as [[out1 err1|e1] w1];
    cbn [snd world trace dateNow]; [|now left].
  right.
  match goal with
  | |- context [exec env ?cmd w1] =>
      destruct (exec env cmd w1) as [[out2 err2|e2] w2]; cbn [snd world trace]
  end.
  - match goal with
    | |- context [files w2 ?out] => destruct (files w2 out); cbn [negb]
    end.
    + right. eexists. eexists (_ :: _ :: _ :: []). split.
      * cbn [world trace]. rewrite <- !app_assoc. cbn [app]. reflexivity.
      * repeat split.
    + left. eexists. eexists (_ :: _ :: []). split.
      * cbn [world trace]. rewrite <- !app_assoc. cbn [app]. reflexivity.
      * repeat split.
  - left. eexists. exists []. split.
    + cbn [world trace]. rewrite <- !app_assoc. cbn [app]. reflexivity.
    + repeat split.
Qed.

(** Every way a call of [createConfigMap] can end, as far as its trace
    goes. *)
Lemma createConfigMap_trace r namespace s :
  exists evs,
    trace (snd (createConfigMap env r namespace s)) = trace s ++ evs /\
    execs_of evs = [] /\ deletes_of evs = [] /\
    (List.length (creates_of evs) <= 1)%nat.
Proof.
  unfold createConfigMap, bind, existsSync, fs_stat, k8sApi, fs_readFile_base64,
    api_create, console, emit, ret, throw.
  destruct (files (world s) (archivePath r)) as [node|] eqn:Hnode; cbn [negb];
    [|exists []; rewrite app_nil_r; auto].
  rewrite ?Hnode.
  destruct (node_size node >? 1024 * 1024)%Z; [exists []; rewrite app_nil_r; auto|].
  destruct (makeApiClient env (world s)); [exists []; rewrite app_nil_r; auto|].
  rewrite ?Hnode.
  destruct node as [content|size]; [|exists []; rewrite app_nil_r; auto].
  destruct (createNamespacedConfigMap env _ (world s)) as [[error|] w]; cbn [snd trace].
  - eexists [_]. repeat split. simpl. lia.
  - eexists [_; _]. rewrite <- app_assoc. repeat split. simpl. lia.
Qed.

Lemma deleteConfigMap_trace name namespace s :
  exists evs,
    trace (snd (deleteConfigMap env name namespace s)) = trace s ++ evs /\
    execs_of evs = [] /\ creates_of evs = [] /\
    (List.length (deletes_of evs) <= 1)%nat.
Proof.
  unfold deleteConfigMap, bind, try_catch, k8sApi, api_delete, console, emit, throw.
  destruct (makeApiClient env (world s)); [exists []; rewrite app_nil_r; auto|].
  destruct (deleteNamespacedConfigMap env _ (world s)) as [[error|] w]; cbn [snd trace].
  - eexists [_]. repeat split. simpl. lia.
  - eexists [_; _]. rewrite <- app_assoc. repeat split. simpl. lia.
Qed.

End Outcomes.

Lemma normalize_plain_alone f :
  plain f -> f <> [CHAR_DOT] -> f <> [CHAR_DOT; CHAR_DOT] -> Path.normalize f = f.
Proof.
  intros Hplain H1 H2. pose proof Hplain as [H0 Hf].
  pose proof (ends_with_plain Hplain) as Hends.
  destruct f as [|c0 f']; [contradiction|].
  unfold Path.normalize, Path.normalizeString.
  rewrite (split_sep_plain _ Hf). cbn [fold_left].
  rewrite normalize_segment_plain by assumption. cbn [rev app Path.join_segments].
  rewrite Hends. simpl in Hf. apply andb_prop in Hf as [Hc _].
  apply negb_true_iff in Hc. now rewrite Hc.
Qed.

Lemma normalize_dot_slash f :
  plain f -> f <> [CHAR_DOT] -> f <> [CHAR_DOT; CHAR_DOT] ->
  Path.normalize (CHAR_DOT :: CHAR_FORWARD_SLASH :: f) = f.
Proof.
  intros Hplain H1 H2. pose proof Hplain as [H0 Hf].
  pose proof (ends_with_plain Hplain) as Hends.
  unfold Path.normalize, Path.normalizeString.
  change (CHAR_DOT :: CHAR_FORWARD_SLASH :: f) with ([CHAR_DOT; CHAR_FORWARD_SLASH] ++ f).
  rewrite (ends_with_app _ _ H0), Hends.
  change ([CHAR_DOT; CHAR_FORWARD_SLASH] ++ f) with ([CHAR_DOT] ++ CHAR_FORWARD_SLASH :: f).
  rewrite split_sep_app, (split_sep_plain _ Hf).
  change (Path.split_sep [CHAR_DOT]) with [[CHAR_DOT]].
  change (Path.is_sep CHAR_DOT) with false.
  cbn [app fold_left negb].
  change (Path.normalize_segment true [] [CHAR_DOT]) with (@nil jsstring).
  rewrite normalize_segment_plain by assumption. cbn [rev app Path.join_segments].
  destruct f; [contradiction|reflexivity].
Qed.

Lemma join_cwd f :
  plain f -> f <> [CHAR_DOT] -> f <> [CHAR_DOT; CHAR_DOT] ->
  Path.join [js "."; f] = f /\ Path.join [js ""; f] = f.
Proof.
  intros Hplain H1 H2. pose proof Hplain as [H0 _].
  destruct f as [|c0 f'] eqn:E; [contradiction|]. rewrite <- E in *.
  split.
  - transitivity (Path.normalize (CHAR_DOT :: CHAR_FORWARD_SLASH :: f));
      [now rewrite E|now apply normalize_dot_slash].
  - transitivity (Path.normalize f); [now rewrite E|now apply normalize_plain_alone].
Qed.

Lemma encode_units_length bytes :
  List.length (Base64.encode_units bytes) = (4 * ((List.length bytes + 2) / 3))%nat.
Proof.
  assert (H : forall n l, (List.length l <= n)%nat ->
            List.length (Base64.encode_units l) = (4 * ((List.length l + 2) / 3))%nat).
  { induction n as [|n IH]; intros l Hl.
    - destruct l; [reflexivity|simpl in Hl; lia].
    - destruct l as [|a [|b [|c rest]]]; try reflexivity.
      cbn [Base64.encode_units List.length]. rewrite IH by (simpl in Hl; lia).
      replace (S (S (S (List.length rest))) + 2)%nat
        with ((List.length rest + 2) + 1 * 3)%nat by lia.
      rewrite Nat.div_add by discriminate. lia. }
  now apply (H (List.length bytes)).
Qed.

Section Further.

Variable env : Env.

(** X5: [archiveTest] lets no error of the shell out as it is: whatever it
    throws is one of its own four failures. *)
Theorem archiveTest_failures script outputDirectory s error s' :
  archiveTest env script outputDirectory s = (Threw error, s') ->
  error = ScriptNotFound script \/
  (exists dir, error = OutputDirectoryNotFound dir) \/
  error = ToolNotInstalled \/
  (exists errorMessage, error = ArchiveCreationFailed errorMessage).
Proof.
  intros H.
  destruct (archiveTest_cases env script outputDirectory s)
    as [E|[[dir E]|[E|[(m & logs & E & _)|(r & logs & E & _)]]]];
    rewrite E in H; try discriminate; injection H as <- _; eauto.
Qed.


(** X7: in any call, [archiveTest] starts at most two subprocesses, the
    version probe and then the archive command, in this order; it makes no
    request to the cluster. *)
Theorem archiveTest_subprocesses script outputDirectory s :
  let archiveOutput :=
    Path.join [directory_or_cwd outputDirectory;
               archive_filename script (clock_reading env s)] in
  let archiveCommand := js "k6 archive -v -O " ++ archiveOutput ++ js " " ++ script in
  exists evs,
    trace (snd (archiveTest env script outputDirectory s)) = trace s ++ evs /\
    creates_of evs = [] /\ deletes_of evs = [] /\
    (execs_of evs = [] \/
     execs_of evs = [js "k6 version"] \/
     execs_of evs = [js "k6 version"; archiveCommand]).
Proof.
  cbv zeta. unfold clock_reading.
  destruct (archiveTest_cases env script outputDirectory s)
    as [E|[[dir E]|[E|[(m & logs & E & He & Hc & Hd)|(r & logs & E & He & Hc & Hd)]]]];
    rewrite E; cbn [snd trace].
  - exists []. rewrite app_nil_r. auto.
  - exists []. rewrite app_nil_r. auto.
  - eexists [_]. repeat split. auto.
  - eexists. split; [reflexivity|].
    unfold creates_of, deletes_of, execs_of in *.
    rewrite !flat_map_app, Hc, Hd, He. auto.
  - eexists. split; [reflexivity|].
    unfold creates_of, deletes_of, execs_of in *.
    rewrite !flat_map_app, Hc, Hd, He. auto.
Qed.

Lemma deleteConfigMap_request name namespace s :
  makeApiClient env (world s) = None ->
  deletes_of (trace (snd (deleteConfigMap env name namespace s)))
  = deletes_of (trace s) ++ [mkDelete name namespace].
Proof.
  intros Hclient.
  unfold deleteConfigMap, bind, try_catch, k8sApi, api_delete, console, emit, throw.
  rewrite Hclient.
  destruct (deleteNamespacedConfigMap env _ (world s)) as [[error|] w];
    cbn [snd trace world]; rewrite ?deletes_of_app; cbn [deletes_of flat_map app];
    now rewrite ?app_nil_r.
Qed.

(** X8: [createConfigMap] does not wrap the errors of the cluster client.
    For an archive that passes the checks, an error in building the client
    is thrown as it is, no request having been made; and an error of the
    create request is thrown as it is, after that one request and without
    the message that reports success. *)
Theorem createConfigMap_client_errors r namespace s content :
  let request :=
    mkCreate namespace
      (mkConfigMap (js "v1") (js "ConfigMap")
         (mkMeta (Path.name (Path.parse (archiveFilename r))) namespace)
         [(archiveFilename r, Base64.encode content)]) in
  files (world s) (archivePath r) = Some (File content) ->
  (Z.of_nat (List.length content) <= 1048576)%Z ->
  (forall error,
      makeApiClient env (world s) = Some error ->
      createConfigMap env r namespace s = (Threw error, s)) /\
  (forall error w,
      makeApiClient env (world s) = None ->
      createNamespacedConfigMap env request (world s) = (Some error, w) ->
      createConfigMap env r namespace s
      = (Threw error, mkState w (trace s ++ [EvCreate request]))).
Proof.
  cbv zeta. intros Hnode Hsize.
  assert (Hle : (Z.of_nat (List.length content) >? 1024 * 1024)%Z = false).
  { destruct (Z.gtb_spec (Z.of_nat (List.length content)) (1024 * 1024)) as [Hgt|_];
      [simpl in Hgt; lia|reflexivity]. }
  split.
  - intros error Hclient.
    unfold createConfigMap, bind, existsSync, fs_stat, k8sApi, throw.
    repeat (rewrite ?Hnode, ?Hclient; cbn [negb node_size]). now rewrite Hle, Hclient.
  - intros error w Hclient Hcreate.
    unfold createConfigMap, bind, existsSync, fs_stat, k8sApi, fs_readFile_base64,
      api_create, throw.
    repeat (rewrite ?Hnode, ?Hclient; cbn [negb node_size]). rewrite Hle, Hclient, Hnode.
    now rewrite Hcreate.
Qed.

(** X9: [createConfigMap] and [deleteConfigMap] start no subprocess;
    [createConfigMap] makes at most one create request and no delete
    request, [deleteConfigMap] at most one delete request and no create
    request, however the call ends. *)
Theorem cluster_operations_traces r name namespace s :
  (exists evs,
      trace (snd (createConfigMap env r namespace s)) = trace s ++ evs /\
      execs_of evs = [] /\ deletes_of evs = [] /\
      (List.length (creates_of evs) <= 1)%nat) /\
  (exists evs,
      trace (snd (deleteConfigMap env name namespace s)) = trace s ++ evs /\
      execs_of evs = [] /\ creates_of evs = [] /\
      (List.length (deletes_of evs) <= 1)%nat).
Proof. split; [apply createConfigMap_trace|apply deleteConfigMap_trace]. Qed.


(** X11: retracting what [createConfigMap] returned.  Called with the
    [configMapName] and the [namespace] of the result, [deleteConfigMap] asks
    for the deletion of the very object the create request named, in the
    namespace the create request was made in. *)
Theorem publish_then_retract r namespace s cm s' s1 :
  createConfigMap env r namespace s = (Returned cm, s') ->
  makeApiClient env (world s1) = None ->
  exists request,
    creates_of (trace s') = creates_of (trace s) ++ [request] /\
    deletes_of (trace (snd (deleteConfigMap env (configMapName cm) (cm_namespace cm) s1)))
    = deletes_of (trace s1) ++
      [mkDelete (meta_name (metadata (create_body request))) (create_namespace request)] /\
    meta_namespace (metadata (create_body request)) = create_namespace request.
Proof.
  intros Hpublish Hclient.
  apply createConfigMap_returned in Hpublish as (content & _ & _ & -> & Htrace).
  eexists. split; [rewrite Htrace, creates_of_app; reflexivity|].
  split; [|reflexivity].
  cbn [configMapName cm_namespace create_body metadata meta_name create_namespace].
  now apply deleteConfigMap_request.
Qed.

(** X12: with no output directory, or with the empty string for one, the
    archive is put in the working directory: its path is its bare file
    name, and [k6 archive] is given that name for [-O]. *)
Theorem archiveTest_in_cwd script outputDirectory s r s' :
  outputDirectory = None \/ outputDirectory = Some [] ->
  archiveTest env script outputDirectory s = (Returned r, s') ->
  archivePath r = archiveFilename r /\
  execs_of (trace s')
  = execs_of (trace s) ++
    [js "k6 version"; js "k6 archive -v -O " ++ archiveFilename r ++ js " " ++ script].
Proof.
  intros Hdir H.
  destruct (archive_filename_plain script (clock_reading env s)) as (Hplain & H1 & H2).
  destruct (join_cwd Hplain H1 H2) as [Hdot Hempty].
  assert (Hjoin : Path.join [directory_or_cwd outputDirectory;
                             archive_filename script (clock_reading env s)]
                  = archive_filename script (clock_reading env s)).
  { destruct Hdir as [->| ->]; assumption. }
  pose proof (archiveTest_returned _ _ _ _ H) as (Hr & _).
  assert (Hs' : snd (archiveTest env script outputDirectory s) = s') by now rewrite H.
  destruct (archiveTest_cases env script outputDirectory s)
    as [E|[[dir E]|[E|[(m & logs & E & _)|(r' & logs & E & He & _)]]]];
    try (rewrite E in H; discriminate).
  rewrite E in Hs'. cbn [snd] in Hs'. subst s' r. cbn [archivePath archiveFilename trace].
  fold (clock_reading env s). rewrite !Hjoin.
  assert (Hbase : Path.basename (archive_filename script (clock_reading env s))
                  = archive_filename script (clock_reading env s))
    by exact (basename_plain (p := []) Hplain (or_introl eq_refl)).
  rewrite Hbase. split; [reflexivity|].
  unfold execs_of in *. rewrite !flat_map_app, He, app_nil_r. reflexivity.
Qed.

(** X13: whatever the script is called, the file name [archiveTest] gives
    the archive has nothing but [a-z0-9.-] in it: no separator, no space, no
    character the shell reads as its own. *)
Theorem archiveFilename_alphabet script outputDirectory s r s' :
  archiveTest env script outputDirectory s = (Returned r, s') ->
  forallb name_char (archiveFilename r) = true.
Proof.
  intros H. apply archiveTest_returned in H as (-> & _). cbn [archiveFilename].
  rewrite archive_filename_basename. apply archive_filename_name_chars.
Qed.

(** X14: the size check bounds the bytes of the archive, not the text
    sent: for an archive of [n] bytes the payload of the create request has
    [4 * ceil(n / 3)] characters, up to 1398104 of them for an archive that
    passes the check. *)
Theorem createConfigMap_payload_length r namespace s cm s' :
  createConfigMap env r namespace s = (Returned cm, s') ->
  exists content payload,
    files (world s) (archivePath r) = Some (File content) /\
    creates_of (trace s') =
      creates_of (trace s) ++
      [mkCreate namespace
         (mkConfigMap (js "v1") (js "ConfigMap")
            (mkMeta (configMapName cm) namespace)
            [(archiveFilename r, payload)])] /\
    (Z.of_nat (List.length payload) = 4 * ((Z.of_nat (List.length content) + 2) / 3))%Z /\
    (Z.of_nat (List.length payload) <= 1398104)%Z.
Proof.
  intros H. apply createConfigMap_returned in H as (content & Hfile & Hsize & -> & ->).
  exists content, (Base64.encode content).
  assert (Hlen : (Z.of_nat (List.length (Base64.encode content))
                  = 4 * ((Z.of_nat (List.length content) + 2) / 3))%Z).
  { unfold Base64.encode. rewrite encode_units_length, length_map.
    rewrite Nat2Z.inj_mul, Nat2Z.inj_div, Nat2Z.inj_add. reflexivity. }
  repeat split; [exact Hfile|now rewrite creates_of_app|exact Hlen|].
  rewrite Hlen.
  assert ((Z.of_nat (List.length content) + 2) / 3 <= (1048576 + 2) / 3)%Z
    by (apply Z.div_le_mono; lia).
  change ((1048576 + 2) / 3)%Z with 349526%Z in *. lia.
Qed.

End Further.

Lemma archiveTest_failures_witness :
  ToolNotInstalled = ScriptNotFound (js "test.js") \/
  (exists dir, ToolNotInstalled = OutputDirectoryNotFound dir) \/
  ToolNotInstalled = ToolNotInstalled \/
  (exists errorMessage, ToolNotInstalled = ArchiveCreationFailed errorMessage).
Proof.
  apply (@archiveTest_failures Sample.failing (js "test.js") None
           (Sample.start Sample.bare_world) ToolNotInstalled
           (mkState Sample.bare_world [EvExec (js "k6 version")])).
  reflexivity.
Defined.


Lemma createConfigMap_client_errors_witness :
  createConfigMap Fixture.no_cluster Sample.sample_archive (js "default")
                  (Sample.start Sample.full_world)
  = (Threw (Error (js "No active cluster!")), Sample.start Sample.full_world) /\
  createConfigMap Sample.failing Sample.sample_archive (js "default")
                  (Sample.start Sample.full_world)
  = (Threw (Error (js "HTTP request failed")),
     mkState Sample.full_world
       ([] ++ [EvCreate
                 (mkCreate (js "default")
                    (mkConfigMap (js "v1") (js "ConfigMap")
                       (mkMeta (Path.name (Path.parse (js "archive-sample-1762000000000.tar")))
                               (js "default"))
                       [(js "archive-sample-1762000000000.tar",
                         Base64.encode [Byte.x6b; Byte.x36])]))])).
Proof.
  split.
  - apply (proj1 (@createConfigMap_client_errors Fixture.no_cluster Sample.sample_archive
                    (js "default") (Sample.start Sample.full_world) [Byte.x6b; Byte.x36]
                    eq_refl ltac:(simpl; lia))).
    reflexivity.
  - apply (proj2 (@createConfigMap_client_errors Sample.failing Sample.sample_archive
                    (js "default") (Sample.start Sample.full_world) [Byte.x6b; Byte.x36]
                    eq_refl ltac:(simpl; lia))).
    + reflexivity.
    + reflexivity.
Defined.


Lemma publish_then_retract_witness :
  exists cm s' request,
    createConfigMap Sample.obliging Sample.sample_archive (js "load-tests")
                    (Sample.start Sample.full_world) = (Returned cm, s') /\
    creates_of (trace s') = [] ++ [request] /\
    deletes_of (trace (snd (deleteConfigMap Sample.obliging (configMapName cm)
                                            (cm_namespace cm)
                                            (Sample.start Sample.full_world))))
    = [] ++
      [mkDelete (meta_name (metadata (create_body request))) (create_namespace request)] /\
    meta_namespace (metadata (create_body request)) = create_namespace request.
Proof.
  do 2 eexists.
  assert (H : createConfigMap Sample.obliging Sample.sample_archive (js "load-tests")
                (Sample.start Sample.full_world) = (Returned _, _))
    by (vm_compute; reflexivity).
  destruct (@publish_then_retract Sample.obliging _ _ _ _ _
              (Sample.start Sample.full_world) H eq_refl)
    as (request & Hcreate & Hdelete & Hns).
  exists request. split; [exact H|]. split; [exact Hcreate|]. split; [exact Hdelete|exact Hns].
Defined.

Lemma archiveTest_in_cwd_witness :
  exists r s',
    archiveTest Sample.obliging (js "sample.js") (Some (js ""))
                (Sample.start Sample.full_world) = (Returned r, s') /\
    archivePath r = archiveFilename r /\
    execs_of (trace s')
    = [] ++ [js "k6 version";
             js "k6 archive -v -O " ++ archiveFilename r ++ js " " ++ js "sample.js"].
Proof.
  do 2 eexists.
  match goal with |- ?A /\ _ => assert (H : A) by (vm_compute; reflexivity) end.
  split; [exact H|].
  exact (@archiveTest_in_cwd Sample.obliging (js "sample.js") (Some (js "")) _ _ _
           (or_intror eq_refl) H).
Defined.

Lemma archiveFilename_alphabet_witness :
  exists r s',
    archiveTest Sample.obliging (js "My Script (v2); rm -rf.js") (Some (js "out"))
                (Sample.start Sample.full_world) = (Returned r, s') /\
    forallb name_char (archiveFilename r) = true.
Proof.
  do 2 eexists.
  match goal with |- ?A /\ _ => assert (H : A) by (vm_compute; reflexivity) end.
  split; [exact H|]. exact (@archiveFilename_alphabet _ _ _ _ _ _ H).
Defined.

Lemma createConfigMap_payload_length_witness :
  exists cm s' content (payload : jsstring),
    createConfigMap Sample.obliging Sample.sample_archive (js "load-tests")
                    (Sample.start Sample.full_world) = (Returned cm, s') /\
    files Sample.full_world (js "out/archive-sample-1762000000000.tar")
    = Some (File content) /\
    (Z.of_nat (List.length payload) = 4 * ((Z.of_nat (List.length content) + 2) / 3))%Z /\
    (Z.of_nat (List.length payload) <= 1398104)%Z.
Proof.
  do 2 eexists.
  assert (H : createConfigMap Sample.obliging Sample.sample_archive (js "load-tests")
                (Sample.start Sample.full_world) = (Returned _, _))
    by (vm_compute; reflexivity).
  destruct (@createConfigMap_payload_length _ _ _ _ _ _ H)
    as (content & payload & Hfile & _ & Hlen & Hmax).
  exists content, payload.
  split; [exact H|]. split; [exact Hfile|]. split; [exact Hlen|exact Hmax].
Defined.

(** * The environment loader *)

Section EnvLoaderFacts.

Import EnvLoader.

Variable host : Host.

Lemma complaints_accepted rules entry :
  (complaints rules entry = [] <-> accepted rules entry = true) /\
  (List.length (complaints rules entry)
   = if accepted rules entry then 0 else 1)%nat.
Proof.
  destruct entry as [key val]. unfold complaints, accepted, validate_entry.
  cbn [fst snd].
  destruct (test (keyPattern rules) key); cbn [negb andb fst app];
    [|split; [split; discriminate|reflexivity]].
  destruct val as [|c val]; [split; [split; discriminate|reflexivity]|].
  rewrite jsstring_eqb_neq by discriminate. cbn [negb andb].
  destruct (test (valuePattern rules) (c :: val)); cbn [negb fst app];
    split; try reflexivity; split; auto; discriminate.
Qed.

Lemma validate_entry_eq rules errors result entry :
  validate_entry rules (errors, result) entry
  = (errors ++ complaints rules entry,
     if accepted rules entry then set_property result (fst entry) (snd entry) else result).
Proof.
  destruct entry as [key val]. unfold complaints, accepted, validate_entry.
  cbn [fst snd].
  destruct (test (keyPattern rules) key); cbn [negb andb fst app]; [|reflexivity].
  destruct val as [|c val]; [reflexivity|].
  rewrite jsstring_eqb_neq by discriminate. cbn [negb andb].
  destruct (test (valuePattern rules) (c :: val)); cbn [negb fst app]; [|reflexivity].
  now rewrite app_nil_r.
Qed.

Lemma validate_fold rules entries errors result :
  fold_left (validate_entry rules) entries (errors, result)
  = (errors ++ flat_map (complaints rules) entries,
     fold_left (fun o e => set_property o (fst e) (snd e))
               (filter (accepted rules) entries) result).
Proof.
  revert errors result. induction entries as [|entry entries IH]; intros errors result.
  - now rewrite app_nil_r.
  - cbn [fold_left flat_map filter]. rewrite validate_entry_eq, IH, <- app_assoc.
    destruct (accepted rules entry); reflexivity.
Qed.

Lemma complaints_none rules entries :
  flat_map (complaints rules) entries = [] <-> forallb (accepted rules) entries = true.
Proof.
  induction entries as [|entry entries IH]; [simpl; tauto|].
  cbn [flat_map forallb]. rewrite andb_true_iff, <- IH.
  rewrite <- (proj1 (complaints_accepted rules entry)).
  split.
  - intros H. now apply app_eq_nil in H.
  - intros [-> ->]. reflexivity.
Qed.

Lemma complaints_count rules entries :
  List.length (flat_map (complaints rules) entries)
  = List.length (filter (fun e => negb (accepted rules e)) entries).
Proof.
  induction entries as [|entry entries IH]; [reflexivity|].
  cbn [flat_map filter]. rewrite length_app, IH, (proj2 (complaints_accepted rules entry)).
  destruct (accepted rules entry); reflexivity.
Qed.

Lemma set_own_In o key val k v :
  In (k, v) (set_own o key val) -> (k, v) = (key, val) \/ In (k, v) o.
Proof.
  induction o as [|[k0 v0] o IH]; simpl.
  - intros [H|[]]. left. now symmetry.
  - destruct (Path.jsstring_eqb k0 key) eqn:E; simpl.
    + apply jsstring_eqb_eq in E. subst. intros [H|H]; [left; now symmetry|auto].
    + intros [H|H]; [auto|]. destruct (IH H); auto.
Qed.

Lemma set_property_In o key val k v :
  In (k, v) (set_property o key val) -> (k, v) = (key, val) \/ In (k, v) o.
Proof.
  unfold set_property. destruct (Path.jsstring_eqb key PROTO); [auto|apply set_own_In].
Qed.

Lemma set_own_sets o key val : In (key, val) (set_own o key val).
Proof.
  induction o as [|[k0 v0] o IH]; simpl; [auto|].
  destruct (Path.jsstring_eqb k0 key) eqn:E; simpl; [|auto].
  apply jsstring_eqb_eq in E. subst. auto.
Qed.

Lemma set_own_keeps o key val k v :
  k <> key -> In (k, v) o -> In (k, v) (set_own o key val).
Proof.
  intros Hk. induction o as [|[k0 v0] o IH]; simpl; [tauto|].
  destruct (Path.jsstring_eqb k0 key) eqn:E; simpl.
  - apply jsstring_eqb_eq in E. subst. intros [[= -> ->]|H]; [contradiction|auto].
  - intros [H|H]; auto.
Qed.

Lemma set_property_keeps o key val k v :
  k <> key -> In (k, v) o -> In (k, v) (set_property o key val).
Proof.
  unfold set_property. destruct (Path.jsstring_eqb key PROTO); [auto|apply set_own_keeps].
Qed.

Lemma set_all_In entries o k v :
  In (k, v) (fold_left (fun o e => set_property o (fst e) (snd e)) entries o) ->
  In (k, v) entries \/ In (k, v) o.
Proof.
  revert o. induction entries as [|[key val] entries IH]; intros o; [auto|].
  cbn [fold_left fst snd]. intros H. apply IH in H as [H|H]; [left; now right|].
  apply set_property_In in H as [H|H]; [left; left; now symmetry|now right].
Qed.

Lemma set_all_keeps entries o k v :
  ~ In k (map fst entries) -> In (k, v) o ->
  In (k, v) (fold_left (fun o e => set_property o (fst e) (snd e)) entries o).
Proof.
  revert o. induction entries as [|[key val] entries IH]; intros o Hk Hin; [exact Hin|].
  cbn [fold_left fst snd]. simpl in Hk. apply IH; [tauto|].
  apply set_property_keeps; [intros ->; tauto|exact Hin].
Qed.

Lemma set_all_sets entries o k v :
  NoDup (map fst entries) -> k <> PROTO -> In (k, v) entries ->
  In (k, v) (fold_left (fun o e => set_property o (fst e) (snd e)) entries o).
Proof.
  revert o. induction entries as [|[key val] entries IH]; intros o Hnd Hk Hin; [contradiction|].
  cbn [fold_left fst snd]. simpl in Hnd. inversion Hnd as [|? ? Hfresh Hnd']. subst.
  destruct Hin as [[= -> ->]|Hin].
  - apply set_all_keeps; [exact Hfresh|].
    unfold set_property. rewrite jsstring_eqb_neq by exact Hk. apply set_own_sets.
  - now apply IH.
Qed.

Lemma filter_all {A} (f : A -> bool) l : forallb f l = true -> filter f l = l.
Proof.
  induction l as [|a l IH]; [reflexivity|]. simpl. intros H.
  apply andb_prop in H as [-> Hl]. now rewrite IH.
Qed.

(** What a call of [loadAndValidateEnv] that returns has done. *)
Lemma loadAndValidateEnv_returned envFilePath rules m result m' :
  loadAndValidateEnv host envFilePath rules m = (Returned result, m') ->
  let R := rules_or_default rules in
  let path := absolute_path host envFilePath in
  exists fileContent envVars,
    fs_existsSync host path = true /\
    fs_readFileSync host path = inr fileContent /\
    dotenv_parse host fileContent = inr envVars /\
    forallb (accepted R) envVars = true /\
    result = fold_left (fun o e => set_property o (fst e) (snd e)) envVars [] /\
    m' = mkModuleState (Some result) (accesses m ++ [AccessExists path; AccessRead path]).
Proof.
  unfold loadAndValidateEnv, rules_or_default, absolute_path. cbv zeta.
  set (R := match rules with Some r => r | None => DEFAULT_RULES end).
  set (path := if starts_with _ _ then _ else _).
  destruct (fs_existsSync host path); cbn [negb]; [|discriminate].
  destruct (fs_readFileSync host path) as [e|fileContent]; [discriminate|].
  destruct (dotenv_parse host fileContent) as [e|envVars] eqn:Hparse; [discriminate|].
  rewrite validate_fold. cbn [app].
  destruct (flat_map (complaints R) envVars) eqn:Hnone; [|discriminate].
  apply complaints_none in Hnone. rewrite (filter_all _ _ Hnone).
  intros [= <- <-]. exists fileContent, envVars. cbn [cachedEnv accesses].
  rewrite <- app_assoc. repeat split; auto.
Qed.

(** X15: [loadAndValidateEnv] gives all the variables of the file or none.
    When it returns, every variable [dotenv] found has passed the three
    checks (name pattern, value not empty, value pattern); the result holds
    nothing but variables of the file, and all of them (the key [__proto__],
    which an assignment cannot make an own property, apart); and the result
    is what the module now keeps in its cache. *)
Theorem loadAndValidateEnv_all_or_nothing envFilePath rules m result m' :
  loadAndValidateEnv host envFilePath rules m = (Returned result, m') ->
  let R := rules_or_default rules in
  exists fileContent envVars,
    fs_readFileSync host (absolute_path host envFilePath) = inr fileContent /\
    dotenv_parse host fileContent = inr envVars /\
    forallb (accepted R) envVars = true /\
    (forall key val, In (key, val) result -> In (key, val) envVars) /\
    (NoDup (map fst envVars) ->
     forall key val, key <> PROTO -> In (key, val) envVars -> In (key, val) result) /\
    cachedEnv m' = Some result.
Proof.
  intros H. apply loadAndValidateEnv_returned in H
    as (fileContent & envVars & _ & Hread & Hparse & Hall & -> & ->).
  exists fileContent, envVars. repeat split; try assumption.
  - intros key val Hin. apply set_all_In in Hin as [Hin|[]]. exact Hin.
  - intros Hnd key val Hk Hin. now apply set_all_sets.
Qed.

(** X16: when a variable fails a check, [loadAndValidateEnv] throws one
    error that reports every variable that failed: after the heading, one
    line for each of them, in the order of the file.  The cache is left as it
    was. *)
Theorem loadAndValidateEnv_report envFilePath rules m fileContent envVars :
  let R := rules_or_default rules in
  let path := absolute_path host envFilePath in
  let lines := flat_map (complaints R) envVars in
  fs_existsSync host path = true ->
  fs_readFileSync host path = inr fileContent ->
  dotenv_parse host fileContent = inr envVars ->
  forallb (accepted R) envVars = false ->
  loadAndValidateEnv host envFilePath rules m
  = (Threw (Error (js "Errores en variables de ambiente:" ++ NEWLINE
                   :: join_lines (map (fun e => js "- " ++ e) lines))),
     mkModuleState (cachedEnv m) (accesses m ++ [AccessExists path; AccessRead path])) /\
  List.length lines = List.length (filter (fun e => negb (accepted R e)) envVars) /\
  lines <> [].
Proof.
  cbv zeta. intros Hexists Hread Hparse Hbad.
  assert (Hsome : flat_map (complaints (rules_or_default rules)) envVars <> []).
  { intros Hnone. apply complaints_none in Hnone. congruence. }
  split; [|split; [apply complaints_count|exact Hsome]].
  unfold loadAndValidateEnv, rules_or_default, absolute_path in *. cbv zeta.
  rewrite Hexists. cbn [negb]. rewrite Hread, Hparse, validate_fold. cbn [app].
  destruct (flat_map _ envVars) eqn:E; [contradiction|].
  cbn [cachedEnv accesses]. now rewrite <- app_assoc.
Qed.

(** X17: the cache.  Once [getAllEnvVars] has returned, asking again gives
    the same variables and asks nothing of the file system; a call that
    throws caches nothing, so the next call tries again; and after
    [resetEnvCache] the next call goes back to the file system. *)
Theorem getAllEnvVars_cache m :
  (forall env m1,
      getAllEnvVars host m = (Returned env, m1) ->
      getAllEnvVars host m1 = (Returned env, m1)) /\
  (forall error m1,
      cachedEnv m = None ->
      getAllEnvVars host m = (Threw error, m1) ->
      cachedEnv m1 = None) /\
  (exists rest,
      accesses (snd (getAllEnvVars host (resetEnvCache m)))
      = accesses m ++ AccessExists (absolute_path host None) :: rest).
Proof.
  unfold getAllEnvVars, ensureEnvLoaded, resetEnvCache. repeat split.
  - intros env m1. destruct (cachedEnv m) eqn:Hc.
    + intros [= <- <-]. now rewrite Hc.
    + destruct (loadAndValidateEnv host None None m) as [[env'|e] m'] eqn:Hload;
        [|discriminate].
      intros [= <- <-]. reflexivity.
  - intros error m1 Hc. rewrite Hc.
    destruct (loadAndValidateEnv host None None m) as [[env'|e] m'] eqn:Hload;
      [discriminate|].
    intros [= <- <-]. revert Hload.
    unfold loadAndValidateEnv. cbv zeta.
    destruct (fs_existsSync host _); cbn [negb]; [|intros [= _ <-]; exact Hc].
    destruct (fs_readFileSync host _); [intros [= _ <-]; exact Hc|].
    destruct (dotenv_parse host _); [intros [= _ <-]; exact Hc|].
    destruct (fold_left _ _ _) as [[|line errors] result];
      [discriminate|intros [= _ <-]; exact Hc].
  - cbn [cachedEnv]. unfold loadAndValidateEnv, absolute_path. cbv zeta.
    cbn [cachedEnv accesses].
    destruct (fs_existsSync host _); cbn [negb]; [|now exists []].
    destruct (fs_readFileSync host _); [eexists; cbn; now rewrite <- app_assoc|].
    destruct (dotenv_parse host _); [eexists; cbn; now rewrite <- app_assoc|].
    destruct (fold_left _ _ _) as [[|line errors] result];
      eexists; cbn; now rewrite <- app_assoc.
Qed.

End EnvLoaderFacts.

Lemma loadAndValidateEnv_all_or_nothing_witness :
  let host := EnvLoader.sample_host EnvLoader.sample_entries in
  let result := EnvLoader.sample_entries in
  let m' := EnvLoader.mkModuleState (Some result)
              [EnvLoader.AccessExists (js "/app/.env"); EnvLoader.AccessRead (js "/app/.env")] in
  EnvLoader.loadAndValidateEnv host None None EnvLoader.fresh = (Returned result, m') /\
  exists fileContent envVars,
    EnvLoader.fs_readFileSync host (EnvLoader.absolute_path host None) = inr fileContent /\
    EnvLoader.dotenv_parse host fileContent = inr envVars /\
    forallb (EnvLoader.accepted EnvLoader.DEFAULT_RULES) envVars = true /\
    (forall key val, In (key, val) result -> In (key, val) envVars) /\
    (NoDup (map fst envVars) ->
     forall key val, key <> EnvLoader.PROTO -> In (key, val) envVars -> In (key, val) result) /\
    EnvLoader.cachedEnv m' = Some result.
Proof.
  cbv zeta.
  match goal with |- ?A /\ _ => assert (H : A) by (vm_compute; reflexivity) end.
  split; [exact H|].
  exact (@loadAndValidateEnv_all_or_nothing _ None None EnvLoader.fresh _ _ H).
Defined.

Lemma loadAndValidateEnv_report_witness :
  let host := EnvLoader.sample_host EnvLoader.bad_entries in
  (EnvLoader.fs_existsSync host (EnvLoader.absolute_path host None) = true /\
   EnvLoader.fs_readFileSync host (EnvLoader.absolute_path host None) = inr (js "contents") /\
   EnvLoader.dotenv_parse host (js "contents") = inr EnvLoader.bad_entries /\
   forallb (EnvLoader.accepted EnvLoader.DEFAULT_RULES) EnvLoader.bad_entries = false) /\
  exists message,
    EnvLoader.loadAndValidateEnv host None None EnvLoader.fresh
    = (Threw (Error message),
       EnvLoader.mkModuleState None
         [EnvLoader.AccessExists (js "/app/.env"); EnvLoader.AccessRead (js "/app/.env")]) /\
    List.length (flat_map (EnvLoader.complaints EnvLoader.DEFAULT_RULES) EnvLoader.bad_entries)
    = 3%nat.
Proof.
  cbv zeta.
  assert (H1 : EnvLoader.fs_existsSync (EnvLoader.sample_host EnvLoader.bad_entries)
                 (EnvLoader.absolute_path (EnvLoader.sample_host EnvLoader.bad_entries) None)
               = true) by reflexivity.
  assert (H2 : EnvLoader.fs_readFileSync (EnvLoader.sample_host EnvLoader.bad_entries)
                 (EnvLoader.absolute_path (EnvLoader.sample_host EnvLoader.bad_entries) None)
               = inr (js "contents")) by reflexivity.
  assert (H3 : EnvLoader.dotenv_parse (EnvLoader.sample_host EnvLoader.bad_entries)
                 (js "contents") = inr EnvLoader.bad_entries) by reflexivity.
  assert (H4 : forallb (EnvLoader.accepted (EnvLoader.rules_or_default None))
                 EnvLoader.bad_entries = false) by reflexivity.
  split; [repeat split; assumption|].
  destruct (@loadAndValidateEnv_report _ None None EnvLoader.fresh _ _ H1 H2 H3 H4)
    as (Hthrown & Hcount & _).
  eexists. split; [exact Hthrown|]. etransitivity; [exact Hcount|reflexivity].
Defined.

Lemma getAllEnvVars_cache_witness :
  let host := EnvLoader.sample_host EnvLoader.sample_entries in
  let m1 := EnvLoader.mkModuleState (Some EnvLoader.sample_entries)
              [EnvLoader.AccessExists (js "/app/.env"); EnvLoader.AccessRead (js "/app/.env")] in
  EnvLoader.getAllEnvVars host EnvLoader.fresh = (Returned EnvLoader.sample_entries, m1) /\
  EnvLoader.getAllEnvVars host m1 = (Returned EnvLoader.sample_entries, m1).
Proof.
  cbv zeta.
  match goal with |- ?A /\ _ => assert (H : A) by (vm_compute; reflexivity) end.
  split; [exact H|].
  exact (proj1 (getAllEnvVars_cache _ EnvLoader.fresh) _ _ H).
Defined.

Example report_sample :
  fst (EnvLoader.loadAndValidateEnv (EnvLoader.sample_host EnvLoader.bad_entries)
         None None EnvLoader.fresh)
  = Threw (Error
      (js "Errores en variables de ambiente:" ++ EnvLoader.NEWLINE
       :: js "- Nombre inv" ++ 225%N :: js "lido: " ++ EnvLoader.QUOTE :: js "api_url"
       ++ EnvLoader.QUOTE :: js " (no cumple el patr" ++ 243%N
       :: js "n /^[A-Z][A-Z0-9_]*$/)" ++ EnvLoader.NEWLINE
       :: js "- Variable " ++ EnvLoader.QUOTE :: js "TOKEN" ++ EnvLoader.QUOTE
       :: js " no tiene valor" ++ EnvLoader.NEWLINE
       :: js "- Valor inv" ++ 225%N :: js "lido en " ++ EnvLoader.QUOTE :: js "NAME"
       ++ EnvLoader.QUOTE :: js " (contiene caracteres no permitidos)")).
Proof. vm_compute. reflexivity. Qed.

(** X18: the failures of [loadAndValidateEnv].  When the file does not
    exist the call throws [Archivo .env no encontrado: ] followed by the
    absolute path, and does not try to read it.  Whatever the failure, what is
    thrown is an [Error] and the cache is left as it was. *)
Theorem loadAndValidateEnv_failures (host : EnvLoader.Host) envFilePath rules m :
  let path := EnvLoader.absolute_path host envFilePath in
  (EnvLoader.fs_existsSync host path = false ->
   EnvLoader.loadAndValidateEnv host envFilePath rules m
   = (Threw (Error (js "Archivo .env no encontrado: " ++ path)),
      EnvLoader.mkModuleState (EnvLoader.cachedEnv m)
        (EnvLoader.accesses m ++ [EnvLoader.AccessExists path]))) /\
  (forall error m',
      EnvLoader.loadAndValidateEnv host envFilePath rules m = (Threw error, m') ->
      (exists message, error = Error message) /\
      EnvLoader.cachedEnv m' = EnvLoader.cachedEnv m).
Proof.
  cbv zeta. unfold EnvLoader.loadAndValidateEnv, EnvLoader.absolute_path. cbv zeta. split.
  - intros ->. reflexivity.
  - intros error m'.
    destruct (EnvLoader.fs_existsSync host _); cbn [negb];
      [|intros [= <- <-]; split; [eexists|]; reflexivity].
    destruct (EnvLoader.fs_readFileSync host _);
      [intros [= <- <-]; split; [eexists|]; reflexivity|].
    destruct (EnvLoader.dotenv_parse host _);
      [intros [= <- <-]; split; [eexists|]; reflexivity|].
    destruct (fold_left _ _ _) as [[|line errors] result];
      [discriminate|intros [= <- <-]; split; [eexists|]; reflexivity].
Qed.

Lemma loadAndValidateEnv_failures_witness :
  let host := EnvLoader.sample_host EnvLoader.sample_entries in
  EnvLoader.fs_existsSync host (EnvLoader.absolute_path host (Some (js "conf/test.env"))) = false /\
  EnvLoader.loadAndValidateEnv host (Some (js "conf/test.env")) None EnvLoader.fresh
  = (Threw (Error (js "Archivo .env no encontrado: /app/conf/test.env")),
     EnvLoader.mkModuleState None [EnvLoader.AccessExists (js "/app/conf/test.env")]).
Proof.
  cbv zeta.
  match goal with |- ?A /\ _ => assert (H : A) by (vm_compute; reflexivity) end.
  split; [exact H|].
  exact (proj1 (@loadAndValidateEnv_failures _ (Some (js "conf/test.env")) None EnvLoader.fresh) H).
Defined.
